(** * The echo probe engine of package [ping] (ping.go)

    A shallow embedding of [Pinger]: the statistics accumulator
    ([updateStatistics], [Statistics]), one probe cycle ([Ping],
    [ipv4Payload]) and the engine life cycle ([NewPinger], [Run],
    [Finish]), followed by the properties established about them.

    Go's [int] and [time.Duration] are 64-bit two's-complement integers:
    they are modelled as [Z] with the wrap-around written out.  [float64]
    is modelled by the kernel's binary64 floats. *)

From Stdlib Require Import String.
From Stdlib.Strings Require Import Byte.
From Stdlib Require Import ZArith QArith List Bool Lia.
From Stdlib Require Import Floats Uint63.
Import ListNotations.
Open Scope Z_scope.

(* ================================================================= *)
(** ** Machine integers and floats *)

(** Reduction of a mathematical integer to the value an [int64] holds. *)
Definition wrap (z : Z) : Z := (z + 2 ^ 63) mod 2 ^ 64 - 2 ^ 63.

Definition add64 (a b : Z) : Z := wrap (a + b).
Definition sub64 (a b : Z) : Z := wrap (a - b).
Definition mul64 (a b : Z) : Z := wrap (a * b).

(** Go's [/] on integers truncates toward zero and panics on a zero
    divisor ([None]). *)
Definition quot64 (a b : Z) : option Z :=
  if b =? 0 then None else Some (wrap (Z.quot a b)).

(** [float64(x)] for an [int64] [x]: the nearest binary64 value. *)
Definition float64_of_int (z : Z) : float :=
  if z =? - 2 ^ 63 then (-9223372036854775808)%float
  else if z <? 0 then PrimFloat.opp (PrimFloat.of_uint63 (Uint63.of_Z (- z)))
  else PrimFloat.of_uint63 (Uint63.of_Z z).

(** The value an out-of-range or NaN float converts to.  Go leaves it to
    the implementation; amd64 yields the "integer indefinite" value. *)
Definition int64_indefinite : Z := - 2 ^ 63.

(** [int64(f)] (and so [time.Duration(f)]): truncation toward zero. *)
Definition int64_of_float (f : float) : Z :=
  match Prim2SF f with
  | S754_zero _ => 0
  | S754_finite s m e =>
      let mag := if 0 <=? e then Z.pos m * 2 ^ e else Z.pos m / 2 ^ (- e) in
      let v := if s then - mag else mag in
      if (- 2 ^ 63 <=? v) && (v <? 2 ^ 63) then v else int64_indefinite
  | S754_infinity _ | S754_nan => int64_indefinite
  end.

(* ================================================================= *)
(** ** Data model *)

(** [Packet]: the result of one probe attempt (fields as [Ping] and [Run]
    use them). *)
Record Packet := mkPacket {
  Seq : Z;
  TTL : Z;
  Nbytes : Z;
  Rtt : Z
}.

(** The zero value of [Packet]. *)
Definition Packet0 : Packet := mkPacket 0 0 0 0.

Definition set_Seq (v : Z) (k : Packet) : Packet :=
  mkPacket v (TTL k) (Nbytes k) (Rtt k).
Definition set_TTL (v : Z) (k : Packet) : Packet :=
  mkPacket (Seq k) v (Nbytes k) (Rtt k).
Definition set_Nbytes (v : Z) (k : Packet) : Packet :=
  mkPacket (Seq k) (TTL k) v (Rtt k).
Definition set_Rtt (v : Z) (k : Packet) : Packet :=
  mkPacket (Seq k) (TTL k) (Nbytes k) v.

(** [Statistics]: the snapshot built by the method of the same name (the
    method is [Statistics] below; the record lives in its own name
    space). *)
Module Stats.
Record Statistics := mk {
  PacketsSent : Z;
  PacketsRecv : Z;
  PacketsRecvDuplicates : Z;
  PacketLoss : float;
  Rtts : list Z;
  LocalIP : string;
  RemoteIP : string;
  MaxRtt : Z;
  MinRtt : Z;
  AvgRtt : Z;
  StdDevRtt : Z
}.
End Stats.

(** [Pinger].  The two addresses are kept in the textual form
    [IPAddr.String] gives; a callback field is [true] when the callback
    is non-nil (a call of it is an event of the run, see [Event]). *)
Record Pinger := mkPinger {
  laddr : string;
  raddr : string;
  Count : Z;
  Interval : Z;
  Timeout : Z;
  Verbose : bool;
  PacketsSent : Z;
  PacketsRecv : Z;
  PacketsRecvDuplicates : Z;
  minRtt : Z;
  maxRtt : Z;
  avgRtt : Z;
  stdDevRtt : Z;
  stddevm2 : Z;
  rtts : list Z;
  finished : bool;
  OnSetup : bool;
  OnSend : bool;
  OnLost : bool;
  OnRecv : bool;
  OnFinish : bool
}.

Definition set_PacketsSent (v : Z) (p : Pinger) : Pinger :=
  mkPinger (laddr p) (raddr p) (Count p) (Interval p) (Timeout p) (Verbose p)
    v (PacketsRecv p) (PacketsRecvDuplicates p)
    (minRtt p) (maxRtt p) (avgRtt p) (stdDevRtt p) (stddevm2 p) (rtts p)
    (finished p) (OnSetup p) (OnSend p) (OnLost p) (OnRecv p) (OnFinish p).
Definition set_PacketsRecv (v : Z) (p : Pinger) : Pinger :=
  mkPinger (laddr p) (raddr p) (Count p) (Interval p) (Timeout p) (Verbose p)
    (PacketsSent p) v (PacketsRecvDuplicates p)
    (minRtt p) (maxRtt p) (avgRtt p) (stdDevRtt p) (stddevm2 p) (rtts p)
    (finished p) (OnSetup p) (OnSend p) (OnLost p) (OnRecv p) (OnFinish p).
Definition set_minRtt (v : Z) (p : Pinger) : Pinger :=
  mkPinger (laddr p) (raddr p) (Count p) (Interval p) (Timeout p) (Verbose p)
    (PacketsSent p) (PacketsRecv p) (PacketsRecvDuplicates p)
    v (maxRtt p) (avgRtt p) (stdDevRtt p) (stddevm2 p) (rtts p)
    (finished p) (OnSetup p) (OnSend p) (OnLost p) (OnRecv p) (OnFinish p).
Definition set_maxRtt (v : Z) (p : Pinger) : Pinger :=
  mkPinger (laddr p) (raddr p) (Count p) (Interval p) (Timeout p) (Verbose p)
    (PacketsSent p) (PacketsRecv p) (PacketsRecvDuplicates p)
    (minRtt p) v (avgRtt p) (stdDevRtt p) (stddevm2 p) (rtts p)
    (finished p) (OnSetup p) (OnSend p) (OnLost p) (OnRecv p) (OnFinish p).
Definition set_avgRtt (v : Z) (p : Pinger) : Pinger :=
  mkPinger (laddr p) (raddr p) (Count p) (Interval p) (Timeout p) (Verbose p)
    (PacketsSent p) (PacketsRecv p) (PacketsRecvDuplicates p)
    (minRtt p) (maxRtt p) v (stdDevRtt p) (stddevm2 p) (rtts p)
    (finished p) (OnSetup p) (OnSend p) (OnLost p) (OnRecv p) (OnFinish p).
Definition set_stdDevRtt (v : Z) (p : Pinger) : Pinger :=
  mkPinger (laddr p) (raddr p) (Count p) (Interval p) (Timeout p) (Verbose p)
    (PacketsSent p) (PacketsRecv p) (PacketsRecvDuplicates p)
    (minRtt p) (maxRtt p) (avgRtt p) v (stddevm2 p) (rtts p)
    (finished p) (OnSetup p) (OnSend p) (OnLost p) (OnRecv p) (OnFinish p).
Definition set_stddevm2 (v : Z) (p : Pinger) : Pinger :=
  mkPinger (laddr p) (raddr p) (Count p) (Interval p) (Timeout p) (Verbose p)
    (PacketsSent p) (PacketsRecv p) (PacketsRecvDuplicates p)
    (minRtt p) (maxRtt p) (avgRtt p) (stdDevRtt p) v (rtts p)
    (finished p) (OnSetup p) (OnSend p) (OnLost p) (OnRecv p) (OnFinish p).
Definition set_rtts (v : list Z) (p : Pinger) : Pinger :=
  mkPinger (laddr p) (raddr p) (Count p) (Interval p) (Timeout p) (Verbose p)
    (PacketsSent p) (PacketsRecv p) (PacketsRecvDuplicates p)
    (minRtt p) (maxRtt p) (avgRtt p) (stdDevRtt p) (stddevm2 p) v
    (finished p) (OnSetup p) (OnSend p) (OnLost p) (OnRecv p) (OnFinish p).
Definition set_finished (v : bool) (p : Pinger) : Pinger :=
  mkPinger (laddr p) (raddr p) (Count p) (Interval p) (Timeout p) (Verbose p)
    (PacketsSent p) (PacketsRecv p) (PacketsRecvDuplicates p)
    (minRtt p) (maxRtt p) (avgRtt p) (stdDevRtt p) (stddevm2 p) (rtts p)
    v (OnSetup p) (OnSend p) (OnLost p) (OnRecv p) (OnFinish p).

(** One second, in [time.Duration] units (nanoseconds). *)
Definition Second : Z := 1000000000.

(** [NewPinger]: every field the literal leaves out has its zero value. *)
Definition NewPinger (localIP remoteIP : string) (timeout count : Z) : Pinger :=
  mkPinger localIP remoteIP count (1 * Second) timeout false
    0 0 0 0 0 0 0 0 [] false false false false false false.

(* ================================================================= *)
(** ** Statistics accumulator *)

(** How a call ends: it returns, or a run-time panic unwinds it. *)
Inductive completion := Normal | Panic.

(** [updateStatistics].  The division by [pktCount] panics when the
    incremented counter is zero; the fields written before that line stay
    written. *)
Definition updateStatistics (pkt : Packet) (p0 : Pinger) : completion * Pinger :=
  let p := set_PacketsRecv (add64 (PacketsRecv p0) 1) p0 in
  let p := set_rtts (rtts p ++ [Rtt pkt]) p in
  let p := if (PacketsRecv p =? 1) || (Rtt pkt <? minRtt p)
           then set_minRtt (Rtt pkt) p else p in
  let p := if maxRtt p <? Rtt pkt then set_maxRtt (Rtt pkt) p else p in
  let pktCount := PacketsRecv p in
  let delta := sub64 (Rtt pkt) (avgRtt p) in
  match quot64 delta pktCount with
  | None => (Panic, p)
  | Some q =>
      let p := set_avgRtt (add64 (avgRtt p) q) p in
      let delta2 := sub64 (Rtt pkt) (avgRtt p) in
      let p := set_stddevm2 (add64 (stddevm2 p) (mul64 delta delta2)) p in
      match quot64 (stddevm2 p) pktCount with
      | None => (Panic, p)
      | Some v =>
          (Normal,
           set_stdDevRtt (int64_of_float (PrimFloat.sqrt (float64_of_int v))) p)
      end
  end.

(** The expression of [Statistics] for the loss percentage. *)
Definition lossOf (sent recv : Z) : float :=
  PrimFloat.mul
    (PrimFloat.div (float64_of_int (sub64 sent recv)) (float64_of_int sent))
    (float64_of_int 100).

(** [Statistics]: the snapshot of the accumulator. *)
Definition Statistics (p : Pinger) : Stats.Statistics :=
  let sent := PacketsSent p in
  let loss := lossOf sent (PacketsRecv p) in
  Stats.mk sent (PacketsRecv p) (PacketsRecvDuplicates p) loss (rtts p)
    (laddr p) (raddr p) (maxRtt p) (minRtt p) (avgRtt p) (stdDevRtt p).

(* ================================================================= *)
(** ** Probe cycle *)

(** The echo body and the message handed to the codec, with the fields
    [Ping] fills in.  ([Typ] is the field [Type].) *)
Module Echo.
Record icmpEcho := mk {
  ID : Z;
  Seq : Z;
  Data : list byte
}.
End Echo.

Record icmpMessage := mkMessage {
  Typ : Z;
  Code : Z;
  SequenceNum : Z;
  Body : option Echo.icmpEcho
}.

(** [int(b)] for a byte [b]. *)
Definition byteZ (b : byte) : Z := Z.of_N (Byte.to_N b).

(** [len(b)] as an [int]. *)
Definition len {A : Type} (b : list A) : Z := Z.of_nat (length b).

(** [ipv4Payload].  The slice expression [b[hdrlen:]] panics ([None])
    when [hdrlen] exceeds [len(b)]. *)
Definition ipv4Payload (b : list byte) : option (list byte) :=
  if len b <? 20 then Some b
  else
    let hdrlen := Z.shiftl (Z.land (byteZ (nth 0 b "000"%byte)) 15) 2 in
    if len b <? hdrlen then None else Some (skipn (Z.to_nat hdrlen) b).

(** [bytes.Repeat(b, n)]. *)
Fixpoint bytesRepeat (b : list byte) (n : nat) : list byte :=
  match n with
  | O => []
  | S k => b ++ bytesRepeat b k
  end.

(** [[]byte("Ping")]. *)
Definition PingBytes : list byte := ["P"; "i"; "n"; "g"]%byte.

(** What [c.Read(rb)] leaves in [rb] when datagram [d] arrives: the
    datagram overwrites the front of the buffer, up to its length. *)
Definition readInto (rb d : list byte) : list byte :=
  firstn (length rb) d ++ skipn (length d) rb.

(** The cause [Ping] returns as [err]. *)
Inductive PingError :=
  DialError | MarshalError | WriteError | ReadError | ParseError.

(** How a call of [Ping] ends: it returns [(err, packet)], or an index or
    slice bound is out of range and the call panics. *)
Inductive PingReturn :=
| Returned (err : option PingError) (packet : Packet)
| Panicked.

(** What the outside world does during one call of [Ping]: the process
    id, whether [DialIP] and [Write] succeed, what the successive calls of
    [Read] deliver ([None]: an error, such as the deadline passing; the
    deadline also ends the list) and what [time.Since(start)] reads when
    the loop is left. *)
Record PingEnv := mkEnv {
  Getpid : Z;
  dialOk : bool;
  writeOk : bool;
  reads : list (option (list byte));
  elapsed : Z
}.

Section ProbeCycle.

(** The codec of the package and its two type constants are not part of
    ping.go. *)
Variable icmpv4EchoRequest icmpv6EchoRequest : Z.
Variable Marshal : icmpMessage -> option (list byte).
Variable parseICMPMessage : list byte -> option icmpMessage.

(** The message [Ping] builds for sequence number [seq]. *)
Definition echoRequest (pid seq : Z) : icmpMessage :=
  let typ := icmpv4EchoRequest in
  let xid := Z.land pid 65535 in
  let xseq := 1 in
  mkMessage typ 0 (Z.land seq 65535)
    (Some (Echo.mk xid xseq (bytesRepeat PingBytes 3))).

(** The [switch] on [m.Type]. *)
Definition isEchoRequest (t : Z) : bool :=
  (t =? icmpv4EchoRequest) || (t =? icmpv6EchoRequest).

(** The read loop of [Ping], one iteration per call of [Read]. *)
Fixpoint readLoop (since : Z) (rs : list (option (list byte)))
    (rb : list byte) (packet : Packet) : PingReturn :=
  match rs with
  | [] | None :: _ => Returned (Some ReadError) packet
  | Some d :: rest =>
      let rb := readInto rb d in
      match nth_error rb 8 with
      | None => Panicked
      | Some ttl =>
          let packet := set_TTL (byteZ ttl) packet in
          match ipv4Payload rb with
          | None => Panicked
          | Some rb =>
              let packet := set_Nbytes (len rb) packet in
              match parseICMPMessage rb with
              | None => Returned (Some ParseError) packet
              | Some m =>
                  if isEchoRequest (Typ m) then readLoop since rest rb packet
                  else Returned None (set_Rtt since packet)
              end
          end
      end
  end.

(** [Ping]. *)
Definition Ping (e : PingEnv) (p : Pinger) (seq : Z) : PingReturn :=
  let packet := set_Seq seq Packet0 in
  if negb (dialOk e) then Returned (Some DialError) packet
  else
    match Marshal (echoRequest (Getpid e) seq) with
    | None => Returned (Some MarshalError) packet
    | Some wb =>
        if negb (writeOk e) then Returned (Some WriteError) packet
        else
          let rb := repeat "000"%byte (20 + length wb) in
          readLoop (elapsed e) (reads e) rb packet
    end.

(** One iteration of the read loop that gets through to the [switch]:
    with buffer [rb], datagram [d] is read, byte 8 is [ttl], the header is
    stripped, leaving [rb'], and [rb'] decodes to [m]. *)
Definition decodes (rb d : list byte) (ttl : byte) (rb' : list byte)
    (m : icmpMessage) : Prop :=
  nth_error (readInto rb d) 8 = Some ttl /\
  ipv4Payload (readInto rb d) = Some rb' /\
  parseICMPMessage rb' = Some m.

(** [discards rb ds rb']: starting with buffer [rb], each datagram of [ds]
    in turn decodes to an Echo Request (IPv4 or IPv6); [rb'] is the buffer
    left for the next read. *)
Inductive discards : list byte -> list (list byte) -> list byte -> Prop :=
| discards_nil rb : discards rb [] rb
| discards_cons rb d ttl rb1 m ds rb' :
    decodes rb d ttl rb1 m ->
    isEchoRequest (Typ m) = true ->
    discards rb1 ds rb' ->
    discards rb (d :: ds) rb'.

End ProbeCycle.

(* ================================================================= *)
(** ** Engine life cycle *)

(** What a run does that the outside can observe, in the order it
    happens.  [Finished] marks the one execution of the function handed
    to [finishOnce.Do]. *)
Inductive Event :=
| Probe (seq : Z)
| Reply (packet : Packet)
| Lost (packet : Packet)
| CallOnLost (packet : Packet)
| CallOnRecv (packet : Packet)
| Logged (isLost : bool) (seq : Z) (packet : Packet)
| Slept (d : Z)
| Finished
| CallOnFinish (s : Stats.Statistics).

(** [Finish].  [once] is the state of the package-level [finishOnce]:
    [true] once its [Do] has run a function.  The result is the new state
    of [finishOnce], the pinger and the events of the call. *)
Definition Finish (once : bool) (p : Pinger) : bool * Pinger * list Event :=
  if once then (true, p, [])
  else
    let p := set_finished true p in
    (true, p,
     Finished :: (if OnFinish p then [CallOnFinish (Statistics p)] else [])).

(** Where the goroutine that executes [Run] stands. *)
Inductive Loc :=
| AtEntry
| AtLoop (count : Z)
| AtCall (count : Z)
| InPing (count : Z) (seq : Z)
| AtUpdate (count : Z) (packet : Packet)
| AtLog (count : Z) (isLost : bool) (packet : Packet)
| AtIncr (count : Z)
| AtSleep (count : Z)
| Exited
| Crashed.

(** The process: one pinger, the package-level [finishOnce], the position
    of [Run] and the events so far. *)
Record World := mkWorld {
  pinger : Pinger;
  finishOnce : bool;
  loc : Loc;
  trace : list Event
}.

(** What can happen next: [Run] takes its next step, the pending call of
    [Ping] ends with [r], or another goroutine calls [p.Finish()]. *)
Inductive Action :=
| Step
| PingReturns (r : PingReturn)
| CallFinish.

(** A call of [Finish] made with the world [w], moving [Run] to [l]. *)
Definition finishAt (l : Loc) (w : World) : World :=
  let '(once, p, evs) := Finish (finishOnce w) (pinger w) in
  mkWorld p once l (trace w ++ evs).

Definition goto (l : Loc) (evs : list Event) (w : World) : World :=
  mkWorld (pinger w) (finishOnce w) l (trace w ++ evs).

(** One step of the process.  A panic inside [Run] runs the deferred
    [p.Finish()] and ends the goroutine ([Crashed]). *)
Definition exec (a : Action) (w : World) : World :=
  let p := pinger w in
  match a, loc w with
  | CallFinish, l => finishAt l w
  | Step, AtEntry => if finished p then goto Exited [] w
                     else goto (AtLoop (Count p)) [] w
  | Step, AtLoop count =>
      if count =? 0 then finishAt Exited w
      else goto (AtCall (if 0 <? count then sub64 count 1 else count)) [] w
  | Step, AtCall count =>
      goto (InPing count (PacketsSent p)) [Probe (PacketsSent p)] w
  | PingReturns Panicked, InPing count seq => finishAt Crashed w
  | PingReturns (Returned (Some _) packet), InPing count seq =>
      goto (AtLog count true packet)
        (Lost packet :: if OnLost p then [CallOnLost packet] else []) w
  | PingReturns (Returned None packet), InPing count seq =>
      goto (AtUpdate count packet)
        (Reply packet :: if OnRecv p then [CallOnRecv packet] else []) w
  | Step, AtUpdate count packet =>
      match updateStatistics packet p with
      | (Normal, p') =>
          mkWorld p' (finishOnce w) (AtLog count false packet) (trace w)
      | (Panic, p') =>
          finishAt Crashed (mkWorld p' (finishOnce w) (loc w) (trace w))
      end
  | Step, AtLog count isLost packet =>
      goto (AtIncr count)
        (if Verbose p then [Logged isLost (PacketsSent p) packet] else []) w
  | Step, AtIncr count =>
      mkWorld (set_PacketsSent (add64 (PacketsSent p) 1) p) (finishOnce w)
        (AtSleep count) (trace w)
  | Step, AtSleep count => goto (AtLoop count) [Slept (Interval p)] w
  | _, _ => w
  end.

(** The process after the actions of a schedule, in order. *)
Definition run (sched : list Action) (w : World) : World :=
  fold_left (fun w a => exec a w) sched w.

(** The process before [Run] is called on [p], no [Finish] having been
    called yet. *)
Definition start (p : Pinger) : World := mkWorld p false AtEntry [].

(** A pinger as a caller sets it up: [NewPinger], then the exported
    option and callback fields. *)
Definition configure (verbose onLost onRecv onFinish : bool) (p : Pinger)
  : Pinger :=
  mkPinger (laddr p) (raddr p) (Count p) (Interval p) (Timeout p) verbose
    (PacketsSent p) (PacketsRecv p) (PacketsRecvDuplicates p)
    (minRtt p) (maxRtt p) (avgRtt p) (stdDevRtt p) (stddevm2 p) (rtts p)
    (finished p) (OnSetup p) (OnSend p) onLost onRecv onFinish.

(** Readings of a trace. *)
Definition isProbe (e : Event) : bool :=
  match e with Probe _ => true | _ => false end.
Definition isFinished (e : Event) : bool :=
  match e with Finished => true | _ => false end.
Definition isCallOnFinish (e : Event) : bool :=
  match e with CallOnFinish _ => true | _ => false end.

(** The number of probe attempts of a trace. *)
Definition attempts (tr : list Event) : Z := len (filter isProbe tr).

(** The round-trip times of the replies of a trace, in arrival order. *)
Fixpoint replies (tr : list Event) : list Z :=
  match tr with
  | [] => []
  | Reply k :: tr => Rtt k :: replies tr
  | _ :: tr => replies tr
  end.

(** The probe attempts that start after the engine has finished. *)
Fixpoint probesAfterFinish (tr : list Event) : nat :=
  match tr with
  | [] => O
  | Finished :: tr => length (filter isProbe tr)
  | _ :: tr => probesAfterFinish tr
  end.

(* ================================================================= *)
(** ** Privilege check *)

(** The state of the privilege check: the package variables [PrivOnce] ([true]
    once its [Do] has run a function), [NonPrivMsg] and [Privileged]. *)
Record Privilege := mkPrivilege {
  PrivOnce : bool;
  NonPrivMsg : string;
  Privileged : bool
}.

(** The package variables before [init]. *)
Definition Privilege0 : Privilege := mkPrivilege false "" false.

(** [HasPrivilege].  [dial] is what [net.DialIP] returns if it is called:
    [None] for a connection, [Some msg] for an error whose text is
    [msg]. *)
Definition HasPrivilege (dial : option string) (s : Privilege)
  : bool * Privilege :=
  if PrivOnce s then (Privileged s, s)
  else
    match dial with
    | Some msg =>
        let s := mkPrivilege true msg false in (Privileged s, s)
    | None =>
        let s := mkPrivilege true (NonPrivMsg s) true in (Privileged s, s)
    end.

(** [init]: the package calls [HasPrivilege] once when it is loaded. *)
Definition init (dial : option string) : Privilege :=
  snd (HasPrivilege dial Privilege0).

(** The package variables after further calls of [HasPrivilege], one per
    element of [dials]. *)
Definition probeAgain (dials : list (option string)) (s : Privilege)
  : Privilege :=
  fold_left (fun s d => snd (HasPrivilege d s)) dials s.

(* ================================================================= *)
(** * Vocabulary of the properties *)

(** ** IPv4 header stripping *)

(** The header length the first byte of [b] declares: its low 4 bits,
    in 32-bit words, as a number of bytes. *)
Definition headerLength (b : list byte) : Z :=
  4 * (byteZ (nth 0 b "000"%byte) mod 16).

(** A 20-byte buffer whose first byte declares a 60-byte header. *)
Definition longHeader : list byte := "O"%byte :: repeat "000"%byte 19.

(** ** Probe cycle *)

(** Modelled from the spec: the decoder of the wire codec, which ping.go
    calls as [parseICMPMessage] and which is not part of ping.go.  It
    parses type and code and, for the four echo types, the echo body
    (identifier, sequence, data); it fails on a buffer too short for the
    fixed header of the declared type.  The type constants are those of
    the glossary (Echo Request 8, Echo Reply 0) and their ICMPv6
    counterparts (128, 129). *)
Definition parseICMPMessage_spec (b : list byte) : option icmpMessage :=
  match b with
  | t :: c :: _ :: _ :: body =>
      if (byteZ t =? 8) || (byteZ t =? 0) || (byteZ t =? 128) || (byteZ t =? 129)
      then
        match body with
        | i1 :: i0 :: s1 :: s0 :: data =>
            let id := byteZ i1 * 256 + byteZ i0 in
            let sq := byteZ s1 * 256 + byteZ s0 in
            Some (mkMessage (byteZ t) (byteZ c) sq (Some (Echo.mk id sq data)))
        | _ => None
        end
      else Some (mkMessage (byteZ t) (byteZ c) 0 None)
  | _ => None
  end.

(** Datagrams for the examples: an IPv4 header without options (TTL 64)
    in front of an ICMP message with identifier [0x1234], sequence number
    7 and the twelve data bytes of [Ping]. *)
Definition ipHeader : list byte :=
  ["E"; "000"; "000"; "("; "000"; "000"; "000"; "000"; "@"; "001";
   "000"; "000"; "010"; "000"; "000"; "001"; "010"; "000"; "000"; "002"]%byte.
Definition icmpBytes (t : byte) : list byte :=
  [t; "000"; "000"; "000"; "018"; "4"; "000"; "007"]%byte
    ++ bytesRepeat PingBytes 3.
Definition requestDatagram : list byte := ipHeader ++ icmpBytes "008"%byte.
Definition replyDatagram : list byte := ipHeader ++ icmpBytes "000"%byte.
(** A datagram whose first byte declares a 12-byte header. *)
Definition shortHeaderReply : list byte :=
  ["C"; "000"; "000"; "020"; "000"; "000"; "000"; "000"; "@"; "001";
   "000"; "000"]%byte ++ firstn 8 (icmpBytes "000"%byte).

(** The buffer [Ping] allocates for a 20-byte request. *)
Definition buffer40 : list byte := repeat "000"%byte (20 + 20).

(** ** Loss percentage *)

(** Whether the float [lossOf sent recv] lies within [2^-45] of the
    exact percentage [(sent - recv) / sent * 100]; a finite float is
    [num * 2^e] exactly. *)
Definition lossAccurate (sent recv : Z) : bool :=
  match Prim2SF (lossOf sent recv) with
  | S754_zero _ => (sent - recv) * 100 =? 0
  | S754_finite s m e =>
      let num := if s then Z.neg m else Z.pos m in
      if e <? 0 then
        Z.abs (num * sent - (sent - recv) * 100 * 2 ^ (- e)) * 2 ^ 45
        <=? sent * 2 ^ (- e)
      else Z.abs (num * 2 ^ e * sent - (sent - recv) * 100) * 2 ^ 45 <=? sent
  | S754_infinity _ | S754_nan => false
  end.

(** [lossAccurate] for every [0 <= recv <= sent] with [1 <= sent <= n]. *)
Definition lossAccurateUpTo (n : nat) : bool :=
  forallb (fun s =>
             forallb (fun r => lossAccurate (Z.of_nat s) (Z.of_nat r))
                     (seq 0 (S s)))
          (seq 1 n).

(** ** Standard deviation *)

(** The accumulator after the replies with round-trip times [l], in
    order. *)
Definition recordAll (l : list Z) (p : Pinger) : Pinger :=
  fold_left (fun p x => snd (updateStatistics (set_Rtt x Packet0) p)) l p.

(** The two-pass formulas: the mean of [l], and the population variance,
    the mean of the squared deviations from it. *)
Definition mean (l : list Z) : Q :=
  Qdiv (inject_Z (fold_right Z.add 0 l)) (inject_Z (len l)).
Definition populationVariance (l : list Z) : Q :=
  Qdiv (fold_right
          (fun x acc => Qplus (Qpower (Qminus (inject_Z x) (mean l)) 2) acc)
          (inject_Z 0) l)
       (inject_Z (len l)).

(** Ten round-trip times one nanosecond apart, from one millisecond. *)
Definition risingRtts : list Z := map (fun k => 1000000 + Z.of_nat k) (seq 0 10).

(** ** The accumulator, one reply at a time *)

(** The least and the greatest element of a list (0 for the empty
    list). *)
Definition minimum (l : list Z) : Z :=
  match l with [] => 0 | x :: l => fold_left Z.min l x end.
Definition maximum (l : list Z) : Z :=
  match l with [] => 0 | x :: l => fold_left Z.max l x end.

(** A round-trip time [time.Since] can return: a non-negative [int64]. *)
Definition validRtt (x : Z) : Prop := 0 <= x < 2 ^ 63.

(** What the accumulator fields satisfy between two calls of
    [updateStatistics]. *)
Definition accumulated (p : Pinger) : Prop :=
  PacketsRecv p = len (rtts p) /\
  Forall validRtt (rtts p) /\
  match rtts p with
  | [] => minRtt p = 0 /\ maxRtt p = 0 /\ avgRtt p = 0
  | _ :: _ =>
      minRtt p = minimum (rtts p) /\ maxRtt p = maximum (rtts p) /\
      0 <= minRtt p /\ minRtt p <= avgRtt p <= maxRtt p /\ maxRtt p < 2 ^ 63
  end.

(** ** Runs *)

(** The attempts in progress at a position of [Run]: the probe has been
    issued and the sent counter not yet incremented. *)
Definition inflight (l : Loc) : Z :=
  match l with
  | InPing _ _ | AtUpdate _ _ | AtLog _ _ _ | AtIncr _ | Crashed => 1
  | _ => 0
  end.

(** The reply received and not yet recorded. *)
Definition pending (l : Loc) : list Z :=
  match l with AtUpdate _ k => [Rtt k] | _ => [] end.

(** The probe that has no answer yet. *)
Definition waiting (l : Loc) : Z :=
  match l with InPing _ _ => 1 | _ => 0 end.

(** An action the environment can take: a successful [Ping] reports a
    round-trip time that [time.Since] can return. *)
Definition realistic (a : Action) : Prop :=
  match a with
  | PingReturns (Returned None k) => validRtt (Rtt k)
  | _ => True
  end.

(** What holds of every world a run reaches within [n] actions. *)
Definition consistent (n : Z) (w : World) : Prop :=
  PacketsRecv (pinger w) = len (rtts (pinger w)) /\
  rtts (pinger w) ++ pending (loc w) = replies (trace w) /\
  len (replies (trace w)) + waiting (loc w) <= attempts (trace w) /\
  PacketsSent (pinger w) + inflight (loc w) = attempts (trace w) /\
  attempts (trace w) <= n.

(** The accumulator is consistent between the steps of a run, and a reply
    waiting to be recorded is valid. *)
Definition steady (w : World) : Prop :=
  accumulated (pinger w) /\ Forall validRtt (pending (loc w)).

(** ** Termination *)

Definition isCallFinish (a : Action) : bool :=
  match a with CallFinish => true | _ => false end.

(** A schedule with the calls of [Finish] by other goroutines left
    out. *)
Definition withoutFinish (sched : list Action) : list Action :=
  filter (fun a => negb (isCallFinish a)) sched.

(** The probes of a trace, in order. *)
Definition probes (tr : list Event) : list Event := filter isProbe tr.

(** Two worlds in which [Run] stands at the same place, has issued the
    same probes and has counted and recorded the same. *)
Definition sameLoop (w1 w2 : World) : Prop :=
  loc w1 = loc w2 /\
  probes (trace w1) = probes (trace w2) /\
  PacketsSent (pinger w1) = PacketsSent (pinger w2) /\
  PacketsRecv (pinger w1) = PacketsRecv (pinger w2) /\
  rtts (pinger w1) = rtts (pinger w2).

(** What the remaining budget [k] at a position of [Run] and the number
    [a] of attempts so far add up to, for a pinger with [Count] [c]. *)
Definition budget (c a : Z) (l : Loc) : Prop :=
  match l with
  | AtEntry => a = 0
  | AtCall k => (c < 0 /\ k = c) \/ (0 <= k /\ a + k + 1 = c)
  | AtLoop k | InPing k _ | AtUpdate k _ | AtLog k _ _ | AtIncr k
  | AtSleep k => (c < 0 /\ k = c) \/ (0 <= k /\ a + k = c)
  | Exited => a = 0 \/ a = c
  | Crashed => True
  end.

(** ** Finishing *)

(** The events of a trace that mark the engine finishing, and the calls
    of the finish observer. *)
Definition finishes (tr : list Event) : list Event := filter isFinished tr.
Definition observerCalls (tr : list Event) : list Event :=
  filter isCallOnFinish tr.

(** What holds of the finish gate in a process with one pinger, whose
    [OnFinish] is [f]. *)
Definition gated (f : bool) (w : World) : Prop :=
  OnFinish (pinger w) = f /\
  if finishOnce w
  then finished (pinger w) = true /\ length (finishes (trace w)) = 1%nat /\
       length (observerCalls (trace w)) = (if f then 1%nat else 0%nat)
  else finishes (trace w) = [] /\ observerCalls (trace w) = [].

(** The process in which a second pinger runs after a first. *)
Definition startAfter (w : World) (p : Pinger) : World :=
  mkWorld p (finishOnce w) AtEntry [].

(** ** A budget of zero *)

(** An event of a run in which nothing is sent: the engine finishing, or
    its observer called with a snapshot that counts nothing. *)
Definition quiet (e : Event) : Prop :=
  match e with
  | Finished => True
  | CallOnFinish s => Stats.PacketsSent s = 0 /\ Stats.PacketsRecv s = 0
  | _ => False
  end.

(** What holds throughout a run with a budget of zero. *)
Definition idle (w : World) : Prop :=
  PacketsSent (pinger w) = 0 /\ PacketsRecv (pinger w) = 0 /\
  Forall quiet (trace w) /\
  ((loc w = AtEntry /\ Count (pinger w) = 0) \/ loc w = AtLoop 0 \/
   loc w = Exited).

(** ** Equal round-trip times *)

(** The accumulator of a pinger whose [k] replies all took [x]. *)
Definition settled (x k : Z) (p : Pinger) : Prop :=
  PacketsRecv p = k /\ minRtt p = x /\ maxRtt p = x /\ avgRtt p = x /\
  stddevm2 p = 0 /\ stdDevRtt p = 0.

(** ** The books of a run *)

(** The readings [f] gives of the events of a trace, in order. *)
Fixpoint pick {A : Type} (f : Event -> option A) (tr : list Event) : list A :=
  match tr with
  | [] => []
  | e :: tr => match f e with Some a => a :: pick f tr | None => pick f tr end
  end.

Definition probeSeq (e : Event) : option Z :=
  match e with Probe s => Some s | _ => None end.
Definition replyPacket (e : Event) : option Packet :=
  match e with Reply k => Some k | _ => None end.
Definition lostPacket (e : Event) : option Packet :=
  match e with Lost k => Some k | _ => None end.
Definition onRecvCall (e : Event) : option Packet :=
  match e with CallOnRecv k => Some k | _ => None end.
Definition onLostCall (e : Event) : option Packet :=
  match e with CallOnLost k => Some k | _ => None end.
Definition sleepOf (e : Event) : option Z :=
  match e with Slept d => Some d | _ => None end.
Definition logSeq (e : Event) : option Z :=
  match e with Logged _ s _ => Some s | _ => None end.

(** The numbers 0, 1, ..., n - 1. *)
Definition countUp (n : Z) : list Z := map Z.of_nat (seq 0 (Z.to_nat n)).

(** The attempt that has got neither a reply nor an error: [Ping] has
    not returned yet, or it panicked. *)
Definition unanswered (l : Loc) : Z :=
  match l with InPing _ _ | Crashed => 1 | _ => 0 end.

(** The sleep that is due: the sent counter is incremented and [Run] has
    not slept yet. *)
Definition sleepDue (l : Loc) : Z :=
  match l with AtSleep _ => 1 | _ => 0 end.

(** The attempt that is logged and not yet counted as sent. *)
Definition logged (l : Loc) : Z :=
  match l with AtIncr _ => 1 | _ => 0 end.

(** The books of a run of a pinger with the options [v] (verbose), [l]
    (an [OnLost] is set), [r] (an [OnRecv] is set) and the interval
    [i]. *)
Definition booked (v l r : bool) (i : Z) (w : World) : Prop :=
  (Verbose (pinger w) = v /\ OnLost (pinger w) = l /\
   OnRecv (pinger w) = r /\ Interval (pinger w) = i) /\
  pick probeSeq (trace w) = countUp (attempts (trace w)) /\
  pick onRecvCall (trace w) = (if r then pick replyPacket (trace w) else []) /\
  pick onLostCall (trace w) = (if l then pick lostPacket (trace w) else []) /\
  len (pick replyPacket (trace w)) + len (pick lostPacket (trace w))
  + unanswered (loc w) = attempts (trace w) /\
  pick sleepOf (trace w)
  = repeat i (Z.to_nat (PacketsSent (pinger w) - sleepDue (loc w))) /\
  pick logSeq (trace w)
  = (if v then countUp (PacketsSent (pinger w) + logged (loc w)) else []) /\
  sleepDue (loc w) <= PacketsSent (pinger w).

(** A pinger that has not run yet: nothing sent, nothing received. *)
Definition fresh (p : Pinger) : Prop :=
  PacketsSent p = 0 /\ PacketsRecv p = 0 /\ rtts p = [].

(** A schedule for the witnesses: a budget of two, a reply and then a
    loss, and a [Finish] by another goroutine in between. *)
Definition twoProbes : list Action :=
  [Step; Step; Step;
   PingReturns (Returned None (mkPacket 0 64 20 12000000));
   Step; Step; CallFinish; Step; Step; Step; Step;
   PingReturns (Returned (Some ReadError) (mkPacket 1 0 0 0));
   Step; Step; Step; Step].

Definition twoProbesPinger : Pinger :=
  configure true true true true
    (NewPinger "0.0.0.0" "1.1.1.1" (5 * Second) 2).

(** ** A run without interference *)

(** The actions of one iteration of the loop of [Run] whose call of
    [Ping] ends with [r], no other goroutine interfering: the loop test,
    the call, the return of [Ping], the update of the statistics after a
    reply, the log line, the increment and the sleep. *)
Definition iteration (r : PingReturn) : list Action :=
  Step :: Step :: PingReturns r
    :: match r with Returned None _ => [Step] | _ => [] end
    ++ [Step; Step; Step].

(** The actions of a whole call of [Run] in which the calls of [Ping]
    end with [rs] in turn: the entry check, the iterations and the last
    loop test, with the deferred [Finish]. *)
Definition sequential (rs : list PingReturn) : list Action :=
  Step :: flat_map iteration rs ++ [Step].

(** The round-trip times of the replies among the results of [Ping]. *)
Fixpoint replyRtts (rs : list PingReturn) : list Z :=
  match rs with
  | [] => []
  | Returned None k :: rs => Rtt k :: replyRtts rs
  | _ :: rs => replyRtts rs
  end.

(** [Ping] returned: it did not panic. *)
Definition returns (r : PingReturn) : Prop := r <> Panicked.

(** [Run] at its loop test with [k] attempts to go, no [Finish] having
    been called. *)
Definition looping (k : Z) (w : World) : Prop :=
  loc w = AtLoop k /\ finishOnce w = false /\
  finished (pinger w) = false /\ observerCalls (trace w) = [].

(* ================================================================= *)
(** * Properties *)

(** ** Machine arithmetic *)

Lemma wrap_id (z : Z) : - 2 ^ 63 <= z < 2 ^ 63 -> wrap z = z.
Proof.
  intros H. unfold wrap. rewrite Z.mod_small; lia.
Qed.

Lemma wrap_range (z : Z) : - 2 ^ 63 <= wrap z < 2 ^ 63.
Proof.
  unfold wrap.
  pose proof (Z.mod_pos_bound (z + 2 ^ 63) (2 ^ 64) ltac:(lia)). lia.
Qed.

Lemma land_65535 (z : Z) : Z.land z 65535 = z mod 2 ^ 16.
Proof.
  change 65535 with (Z.ones 16). apply Z.land_ones. lia.
Qed.

Lemma len_nonneg {A : Type} (l : list A) : 0 <= len l.
Proof. unfold len. lia. Qed.

Lemma len_app {A : Type} (l k : list A) : len (l ++ k) = len l + len k.
Proof. unfold len. rewrite length_app. lia. Qed.

(* ================================================================= *)
(** ** IPv4 header stripping *)

Lemma hdrlen_headerLength (b : list byte) :
  Z.shiftl (Z.land (byteZ (nth 0 b "000"%byte)) 15) 2 = headerLength b.
Proof.
  unfold headerLength. rewrite Z.shiftl_mul_pow2 by lia.
  change 15 with (Z.ones 4). rewrite Z.land_ones by lia.
  change (2 ^ 4) with 16. change (2 ^ 2) with 4. lia.
Qed.

Lemma headerLength_range (b : list byte) : 0 <= headerLength b <= 60.
Proof.
  unfold headerLength.
  pose proof (Z.mod_pos_bound (byteZ (nth 0 b "000"%byte)) 16 ltac:(lia)).
  lia.
Qed.

(** C9, as stated, fails: on a buffer of at least 20 bytes whose declared
    header is longer than the buffer, [ipv4Payload] returns nothing: the
    slice expression panics. *)
Lemma ipv4Payload_longHeader :
  len longHeader = 20 /\ headerLength longHeader = 60 /\
  ipv4Payload longHeader = None.
Proof. vm_compute. repeat split. Qed.

(** C9, amended: a buffer shorter than 20 bytes is returned unchanged; a
    buffer of at least 20 bytes that holds the whole declared header is
    split into that header, of [headerLength b] bytes, and the returned
    rest. *)
Theorem ipv4Payload_spec (b : list byte)
    (Hfit : 20 <= len b -> headerLength b <= len b) :
  (len b < 20 -> ipv4Payload b = Some b) /\
  (20 <= len b ->
   exists hdr rest,
     b = hdr ++ rest /\ len hdr = headerLength b /\
     ipv4Payload b = Some rest).
Proof.
  unfold ipv4Payload. rewrite hdrlen_headerLength. split; intros H.
  - destruct (Z.ltb_spec (len b) 20); [reflexivity | lia].
  - specialize (Hfit H). pose proof (headerLength_range b) as Hr.
    destruct (Z.ltb_spec (len b) 20); [lia |].
    destruct (Z.ltb_spec (len b) (headerLength b)); [lia |].
    exists (firstn (Z.to_nat (headerLength b)) b),
           (skipn (Z.to_nat (headerLength b)) b).
    repeat split.
    + symmetry. apply firstn_skipn.
    + unfold len in *. rewrite length_firstn. lia.
Qed.

Lemma ipv4Payload_spec_witness :
  let b := "E"%byte :: repeat "000"%byte 19 ++ ["008"; "000"; "*"; "*"]%byte in
  (len b < 20 -> ipv4Payload b = Some b) /\
  (20 <= len b ->
   exists hdr rest,
     b = hdr ++ rest /\ len hdr = headerLength b /\
     ipv4Payload b = Some rest).
Proof.
  apply (ipv4Payload_spec
           ("E"%byte :: repeat "000"%byte 19 ++ ["008"; "000"; "*"; "*"]%byte)).
  vm_compute. intros _ H. discriminate H.
Defined.

(** On a header without options the result is the bytes after the first
    20. *)
Example ipv4Payload_plain :
  ipv4Payload ("E"%byte :: repeat "000"%byte 19 ++ ["008"; "000"; "*"; "*"]%byte)
  = Some ["008"; "000"; "*"; "*"]%byte.
Proof. reflexivity. Qed.

(* ================================================================= *)
(** ** Probe cycle *)

Section ProbeCycleFacts.

Variable icmpv4EchoRequest icmpv6EchoRequest : Z.
Variable parseICMPMessage : list byte -> option icmpMessage.

Local Abbreviation readLoop :=
  (readLoop icmpv4EchoRequest icmpv6EchoRequest parseICMPMessage).
Local Abbreviation isEchoRequest :=
  (isEchoRequest icmpv4EchoRequest icmpv6EchoRequest).
Local Abbreviation decodes := (decodes parseICMPMessage).
Local Abbreviation discards :=
  (discards icmpv4EchoRequest icmpv6EchoRequest parseICMPMessage).

Lemma readLoop_discard since rb d ttl rb1 m rest packet :
  decodes rb d ttl rb1 m ->
  isEchoRequest (Typ m) = true ->
  readLoop since (Some d :: rest) rb packet
  = readLoop since rest rb1 (set_Nbytes (len rb1) (set_TTL (byteZ ttl) packet)).
Proof.
  intros (H8 & Hp & Hm) He.
  cbn -[readInto nth_error ipv4Payload len byteZ].
  rewrite H8, Hp, Hm, He. reflexivity.
Qed.

Lemma readLoop_accept since rb d ttl rb1 m rest packet :
  decodes rb d ttl rb1 m ->
  isEchoRequest (Typ m) = false ->
  readLoop since (Some d :: rest) rb packet
  = Returned None
      (mkPacket (Seq packet) (byteZ ttl) (len rb1) since).
Proof.
  intros (H8 & Hp & Hm) He.
  cbn -[readInto nth_error ipv4Payload len byteZ].
  rewrite H8, Hp, Hm, He. reflexivity.
Qed.



Variable Marshal : icmpMessage -> option (list byte).

Local Abbreviation echoRequest := (echoRequest icmpv4EchoRequest).

(** The fields of the message [Ping] builds. *)
Lemma echoRequest_fields (pid seq : Z) :
  Typ (echoRequest pid seq) = icmpv4EchoRequest /\
  Code (echoRequest pid seq) = 0 /\
  SequenceNum (echoRequest pid seq) = seq mod 2 ^ 16 /\
  option_map Echo.ID (Body (echoRequest pid seq)) = Some (pid mod 2 ^ 16).
Proof.
  unfold echoRequest. cbn. rewrite !land_65535. repeat split.
Qed.

(** The echo body of the message carries the constant 1 in its own [Seq]
    field, for every probe. *)
Lemma echoRequest_body_seq (pid seq : Z) :
  option_map Echo.Seq (Body (echoRequest pid seq)) = Some 1.
Proof. reflexivity. Qed.

(** A successful [Ping] reports the sequence number it was called with
    and the elapsed time of the environment. *)
Lemma readLoop_returned since rs :
  forall rb packet err packet',
    readLoop since rs rb packet = Returned err packet' ->
    Seq packet' = Seq packet /\ (err = None -> Rtt packet' = since).
Proof.
  induction rs as [| [d |] rs IH]; intros rb packet err packet' H;
    cbn -[readInto nth_error ipv4Payload len byteZ] in H.
  - inversion H; subst. split; [reflexivity | discriminate].
  - destruct (nth_error (readInto rb d) 8) as [ttl |]; [| discriminate].
    destruct (ipv4Payload (readInto rb d)) as [rb1 |]; [| discriminate].
    destruct (parseICMPMessage rb1) as [m |].
    + destruct (isEchoRequest (Typ m)).
      * apply IH in H. exact H.
      * inversion H; subst. split; reflexivity.
    + inversion H; subst. split; [reflexivity | discriminate].
  - inversion H; subst. split; [reflexivity | discriminate].
Qed.

Lemma Ping_returned e p seq err packet :
  Ping icmpv4EchoRequest icmpv6EchoRequest Marshal parseICMPMessage e p seq
  = Returned err packet ->
  Seq packet = seq /\ (err = None -> Rtt packet = elapsed e).
Proof.
  unfold Ping. intros H.
  destruct (dialOk e); cbn [negb] in H;
    [| inversion H; subst; split; [reflexivity | discriminate]].
  destruct (Marshal _) as [wb |];
    [| inversion H; subst; split; [reflexivity | discriminate]].
  destruct (writeOk e); cbn [negb] in H;
    [| inversion H; subst; split; [reflexivity | discriminate]].
  apply readLoop_returned in H. exact H.
Qed.

End ProbeCycleFacts.

(** C4, as stated, fails: the echo body of the message carries the
    constant 1 as its sequence number, whatever the probe's; here the
    probe has sequence number 7. *)
Lemma echoRequest_seq_constant :
  option_map Echo.Seq (Body (echoRequest 8 4242 7)) = Some 1 /\
  7 mod 2 ^ 16 = 7.
Proof. split; reflexivity. Qed.

(** C4, amended: the message [Ping] hands to the codec for sequence
    number [seq] is an Echo Request whose echo body carries the process id
    modulo 2^16 as identifier and the constant 1 as sequence number;
    [seq] modulo 2^16 is carried by the field [SequenceNum] of the message
    itself.  The codec is asked about no other message: two codecs that
    agree on this one give the same [Ping]. *)
Theorem Ping_echo_request
    (icmpv4EchoRequest icmpv6EchoRequest : Z)
    (parseICMPMessage : list byte -> option icmpMessage)
    (e : PingEnv) (p : Pinger) (seq : Z) :
  let m := echoRequest icmpv4EchoRequest (Getpid e) seq in
  Typ m = icmpv4EchoRequest /\
  Code m = 0 /\
  SequenceNum m = seq mod 2 ^ 16 /\
  option_map Echo.ID (Body m) = Some (Getpid e mod 2 ^ 16) /\
  option_map Echo.Seq (Body m) = Some 1 /\
  forall M1 M2 : icmpMessage -> option (list byte),
    M1 m = M2 m ->
    Ping icmpv4EchoRequest icmpv6EchoRequest M1 parseICMPMessage e p seq
    = Ping icmpv4EchoRequest icmpv6EchoRequest M2 parseICMPMessage e p seq.
Proof.
  intros m.
  destruct (echoRequest_fields icmpv4EchoRequest (Getpid e) seq)
    as (Ht & Hc & Hs & Hi).
  repeat split; try assumption.
  intros M1 M2 HM. unfold Ping. fold m. rewrite HM. reflexivity.
Qed.


(** A reply is accepted whatever it echoes: the process id of the example
    is 1, the probe's sequence number 3, the reply carries [0x1234] and
    7. *)
Example Ping_accepts_mismatch :
  Ping 8 128 (fun _ => Some (icmpBytes "008"%byte)) parseICMPMessage_spec
    (mkEnv 1 true true [Some replyDatagram] 12000000)
    (NewPinger "0.0.0.0" "1.1.1.1" (5 * Second) 1) 3
  = Returned None (mkPacket 3 64 20 12000000).
Proof. reflexivity. Qed.

(** The buffer of the loop is the slice [ipv4Payload] returned: after one
    discarded Echo Request it holds 20 bytes, so of the next datagram only
    the IPv4 header is read and nothing is left to decode. *)
Example Ping_after_discard :
  Ping 8 128 (fun _ => Some (icmpBytes "008"%byte)) parseICMPMessage_spec
    (mkEnv 1 true true [Some requestDatagram; Some replyDatagram] 12000000)
    (NewPinger "0.0.0.0" "1.1.1.1" (5 * Second) 1) 3
  = Returned (Some ParseError) (mkPacket 3 64 0 0).
Proof. reflexivity. Qed.

(* ================================================================= *)
(** ** Loss percentage *)

Lemma lossAccurate_200 : lossAccurateUpTo 200 = true.
Proof. vm_compute. reflexivity. Qed.

Lemma lossAccurateUpTo_spec (n : nat) :
  lossAccurateUpTo n = true ->
  forall sent recv : Z,
    0 < sent <= Z.of_nat n -> 0 <= recv <= sent ->
    lossAccurate sent recv = true.
Proof.
  unfold lossAccurateUpTo. intros H sent recv Hs Hr.
  rewrite forallb_forall in H.
  specialize (H (Z.to_nat sent)). rewrite in_seq in H.
  specialize (H ltac:(lia)). rewrite forallb_forall in H.
  specialize (H (Z.to_nat recv)). rewrite in_seq in H.
  specialize (H ltac:(lia)). rewrite !Z2Nat.id in H by lia. exact H.
Qed.

Lemma lossAccurate_small (sent recv : Z) :
  0 < sent <= 200 -> 0 <= recv <= sent -> lossAccurate sent recv = true.
Proof.
  intros Hs Hr.
  apply (lossAccurateUpTo_spec 200 lossAccurate_200); [| exact Hr].
  change (Z.of_nat 200) with 200. exact Hs.
Qed.

(** C5, as stated, fails: the snapshot of a pinger that has sent nothing
    divides by zero without a guard; its loss percentage is the NaN that
    [0/0] gives. *)
Lemma Statistics_loss_unguarded :
  let s := Statistics (NewPinger "0.0.0.0" "1.1.1.1" (5 * Second) 3) in
  Stats.PacketsSent s = 0 /\
  Stats.PacketLoss s = PrimFloat.mul (PrimFloat.div 0 0) 100 /\
  PrimFloat.is_nan (Stats.PacketLoss s) = true.
Proof. vm_compute. repeat split. Qed.

(** With one reply recorded and the sent counter still 0 the same
    expression gives minus infinity. *)
Example lossOf_0_1 : lossOf 0 1 = neg_infinity.
Proof. vm_compute. reflexivity. Qed.

(** C5, amended: the loss percentage of every snapshot is the float64
    expression [float64(sent - received) / float64(sent) * 100], with no
    guard.  With nothing sent and nothing received it is NaN, a value and
    not a crash; with [0 < sent] it is the rounded percentage (within
    [2^-45] of the exact one, checked for [sent] up to 200). *)
Theorem Statistics_loss (p : Pinger) :
  let s := Statistics p in
  Stats.PacketLoss s = lossOf (Stats.PacketsSent s) (Stats.PacketsRecv s) /\
  (Stats.PacketsSent s = 0 -> Stats.PacketsRecv s = 0 ->
   PrimFloat.is_nan (Stats.PacketLoss s) = true) /\
  (0 < Stats.PacketsSent s <= 200 ->
   0 <= Stats.PacketsRecv s <= Stats.PacketsSent s ->
   lossAccurate (Stats.PacketsSent s) (Stats.PacketsRecv s) = true).
Proof.
  cbn. repeat split.
  - intros Hs Hr. rewrite Hs, Hr. vm_compute. reflexivity.
  - apply lossAccurate_small.
Qed.

(* ================================================================= *)
(** ** Standard deviation *)

(** C6 fails on the code.  The mean is updated with an integer division,
    which truncates: on ten replies one nanosecond apart it never leaves
    the first sample, and the reported deviation is 5 ns where the
    population variance is 33/4, a standard deviation below 3 ns. *)
Theorem stdDev_rising :
  let p := recordAll risingRtts (NewPinger "0.0.0.0" "1.1.1.1" (5 * Second) 10) in
  avgRtt p = 1000000 /\ stddevm2 p = 285 /\ stdDevRtt p = 5 /\
  Qeq (populationVariance risingRtts) (33 # 4) /\
  Qlt (populationVariance risingRtts) (inject_Z (3 * 3)).
Proof. vm_compute. repeat split. Qed.

(** The product [delta * delta2] is an [int64] of squared nanoseconds: it
    overflows when the round-trip times are seconds apart.  After replies
    of 1 ms and 4.5 s the sum of squares is negative and its square root
    is NaN. *)
Example stdDev_overflow :
  let p := recordAll [1000000; 4500000000]
             (NewPinger "0.0.0.0" "1.1.1.1" (5 * Second) 2) in
  stddevm2 p = -8326243573709551616 /\
  PrimFloat.is_nan (PrimFloat.sqrt (float64_of_int (stddevm2 p / 2))) = true /\
  stdDevRtt p = int64_indefinite.
Proof. vm_compute. repeat split. Qed.

(** One reply of 12 ms: minimum, maximum and mean are 12 ms, the
    deviation 0. *)
Example stdDev_single :
  let p := recordAll [12000000] (NewPinger "0.0.0.0" "1.1.1.1" (5 * Second) 1) in
  minRtt p = 12000000 /\ maxRtt p = 12000000 /\ avgRtt p = 12000000 /\
  stdDevRtt p = 0.
Proof. vm_compute. repeat split. Qed.

(* ================================================================= *)
(** ** The accumulator, one reply at a time *)

Lemma minimum_snoc (l : list Z) (x : Z) :
  minimum (l ++ [x]) = match l with [] => x | _ => Z.min (minimum l) x end.
Proof.
  destruct l as [| a l]; [reflexivity |].
  cbn. rewrite fold_left_app. reflexivity.
Qed.

Lemma maximum_snoc (l : list Z) (x : Z) :
  maximum (l ++ [x]) = match l with [] => x | _ => Z.max (maximum l) x end.
Proof.
  destruct l as [| a l]; [reflexivity |].
  cbn. rewrite fold_left_app. reflexivity.
Qed.

(** Truncated division moves toward zero and not past it. *)
Lemma quot_between (d n : Z) :
  0 < n ->
  (0 <= d -> 0 <= Z.quot d n <= d) /\ (d <= 0 -> d <= Z.quot d n <= 0).
Proof.
  intros Hn.
  assert (Hpos : forall a, 0 <= a -> 0 <= Z.quot a n <= a).
  { intros a Ha. rewrite Z.quot_div_nonneg by lia.
    pose proof (Z.div_mod a n ltac:(lia)).
    pose proof (Z.mod_pos_bound a n Hn).
    assert (0 <= a / n) by (apply Z.div_pos; lia). nia. }
  split; intros Hd.
  - apply Hpos, Hd.
  - replace d with (- (- d)) by lia. rewrite Z.quot_opp_l by lia.
    specialize (Hpos (- d) ltac:(lia)). lia.
Qed.

(** The fields [updateStatistics] leaves alone, and its two plain
    writes. *)
Lemma updateStatistics_frame (pkt : Packet) (p : Pinger) :
  let p' := snd (updateStatistics pkt p) in
  PacketsSent p' = PacketsSent p /\ finished p' = finished p /\
  Count p' = Count p /\ Verbose p' = Verbose p /\ Interval p' = Interval p /\
  OnLost p' = OnLost p /\ OnRecv p' = OnRecv p /\ OnFinish p' = OnFinish p /\
  PacketsRecv p' = add64 (PacketsRecv p) 1 /\
  rtts p' = rtts p ++ [Rtt pkt].
Proof.
  unfold updateStatistics, quot64. cbn.
  repeat match goal with
         | |- context [if ?b then _ else _] => destruct b; cbn
         end;
    repeat split.
Qed.


(** What [updateStatistics] writes to the minimum, the maximum and the
    mean, when the incremented reply counter is not zero. *)
Lemma updateStatistics_fields (pkt : Packet) (p : Pinger) :
  add64 (PacketsRecv p) 1 <> 0 ->
  fst (updateStatistics pkt p) = Normal /\
  minRtt (snd (updateStatistics pkt p))
  = (if (add64 (PacketsRecv p) 1 =? 1) || (Rtt pkt <? minRtt p)
     then Rtt pkt else minRtt p) /\
  maxRtt (snd (updateStatistics pkt p))
  = (if maxRtt p <? Rtt pkt then Rtt pkt else maxRtt p) /\
  avgRtt (snd (updateStatistics pkt p))
  = add64 (avgRtt p)
      (wrap (Z.quot (sub64 (Rtt pkt) (avgRtt p)) (add64 (PacketsRecv p) 1))).
Proof.
  intros Hn. unfold updateStatistics, quot64.
  set (n := add64 (PacketsRecv p) 1) in *.
  cbn -[Z.quot wrap add64 sub64 mul64 Z.ltb Z.eqb].
  fold n.
  destruct ((n =? 1) || (Rtt pkt <? minRtt p));
    cbn -[Z.quot wrap add64 sub64 mul64 Z.ltb Z.eqb];
    destruct (maxRtt p <? Rtt pkt);
    cbn -[Z.quot wrap add64 sub64 mul64 Z.ltb Z.eqb];
    destruct (Z.eqb_spec n 0); try contradiction;
    cbn -[Z.quot wrap add64 sub64 mul64 Z.ltb Z.eqb];
    repeat split.
Qed.

(** Recording a valid round-trip time keeps the accumulator consistent,
    and does not panic, as long as the reply counter does not wrap. *)
Lemma updateStatistics_accumulated (pkt : Packet) (p : Pinger) :
  accumulated p -> validRtt (Rtt pkt) -> len (rtts p) + 1 < 2 ^ 63 ->
  fst (updateStatistics pkt p) = Normal /\
  accumulated (snd (updateStatistics pkt p)).
Proof.
  intros (Hrecv & Hall & Hacc) Hx Hn.
  pose proof (len_nonneg (rtts p)) as Hlen.
  assert (Hcount : add64 (PacketsRecv p) 1 = len (rtts p) + 1)
    by (unfold add64; rewrite Hrecv; apply wrap_id; lia).
  destruct (updateStatistics_fields pkt p ltac:(lia))
    as (Hok & Hmin & Hmax & Havg).
  destruct (updateStatistics_frame pkt p)
    as (_ & _ & _ & _ & _ & _ & _ & _ & Hrecv' & Hrtts').
  split; [exact Hok |].
  unfold accumulated. rewrite Hrecv', Hrtts', Hmin, Hmax, Havg, Hcount.
  rewrite len_app. change (len [Rtt pkt]) with 1.
  split; [reflexivity |]. split.
  { apply Forall_app. split; [assumption |].
    constructor; [exact Hx | constructor]. }
  rewrite minimum_snoc, maximum_snoc. unfold validRtt in Hx.
  unfold add64, sub64.
  destruct (rtts p) as [| a l] eqn:Hl.
  - (* the first reply *)
    destruct Hacc as (Hmin0 & Hmax0 & Havg0).
    rewrite Hmin0, Hmax0, Havg0. cbn [app len length Z.of_nat Z.add].
    change (Z.pos 1) with 1. rewrite Z.eqb_refl, Z.sub_0_r. cbn [orb].
    rewrite Z.quot_1_r, !(wrap_id (Rtt pkt)) by lia.
    rewrite ?Z.add_0_l, ?(wrap_id (Rtt pkt)) by lia.
    destruct (Z.ltb_spec 0 (Rtt pkt)); repeat split; lia.
  - (* a later reply *)
    destruct Hacc as (Hmin0 & Hmax0 & Hlo & Havg0 & Hhi).
    assert (Hlen1 : 1 <= len (a :: l)) by (unfold len; cbn [length]; lia).
    set (n := len (a :: l) + 1) in *.
    destruct (Z.eqb_spec n 1) as [? | _]; [lia |]. cbn [orb].
    pose proof (quot_between (Rtt pkt - avgRtt p) n ltac:(lia)) as [Hq1 Hq2].
    rewrite (wrap_id (Rtt pkt - avgRtt p)) by lia.
    rewrite (wrap_id (Z.quot (Rtt pkt - avgRtt p) n)) by lia.
    rewrite (wrap_id (avgRtt p + Z.quot (Rtt pkt - avgRtt p) n)) by lia.
    rewrite <- Hmin0, <- Hmax0. cbn [app].
    destruct (Z.ltb_spec (Rtt pkt) (minRtt p));
      destruct (Z.ltb_spec (maxRtt p) (Rtt pkt)); repeat split; lia.
Qed.

(* ================================================================= *)
(** ** Runs *)

Lemma replies_app (tr tr' : list Event) :
  replies (tr ++ tr') = replies tr ++ replies tr'.
Proof.
  induction tr as [| e tr IH]; [reflexivity |].
  destruct e; cbn; rewrite ?IH; reflexivity.
Qed.

Lemma attempts_app (tr tr' : list Event) :
  attempts (tr ++ tr') = attempts tr + attempts tr'.
Proof. unfold attempts. rewrite filter_app. apply len_app. Qed.

Lemma run_snoc (sched : list Action) (a : Action) (w : World) :
  run (sched ++ [a]) w = exec a (run sched w).
Proof. unfold run. rewrite fold_left_app. reflexivity. Qed.

(** [Finish] writes [finished] only, and its events are neither probes
    nor replies. *)
Lemma Finish_spec (once : bool) (p : Pinger) :
  let '(once', p', evs) := Finish once p in
  once' = true /\
  p' = (if once then p else set_finished true p) /\
  replies evs = [] /\ attempts evs = 0.
Proof.
  unfold Finish. destruct once; [repeat split |].
  cbn. destruct (OnFinish p); repeat split.
Qed.

Lemma finishAt_consistent (n : Z) (l : Loc) (w : World) :
  pending l = pending (loc w) -> waiting l <= waiting (loc w) ->
  inflight l = inflight (loc w) ->
  consistent n w -> consistent n (finishAt l w).
Proof.
  intros Hp Hw Hi (Hacc & Hr & Hrep & Hsent & Hn).
  unfold finishAt. pose proof (Finish_spec (finishOnce w) (pinger w)) as H.
  destruct (Finish (finishOnce w) (pinger w)) as [[once p'] evs].
  destruct H as (_ & -> & Hrep' & Hatt').
  unfold consistent. cbn [pinger loc trace].
  rewrite replies_app, attempts_app, Hrep', Hatt', app_nil_r, Z.add_0_r.
  rewrite Hp, Hi.
  destruct (finishOnce w); repeat split; try assumption; lia.
Qed.

Lemma goto_consistent (n : Z) (l : Loc) (evs : list Event) (w : World) :
  PacketsRecv (pinger w) = len (rtts (pinger w)) ->
  rtts (pinger w) ++ pending l = replies (trace w) ++ replies evs ->
  len (replies (trace w) ++ replies evs) + waiting l
  <= attempts (trace w) + attempts evs ->
  PacketsSent (pinger w) + inflight l = attempts (trace w) + attempts evs ->
  attempts (trace w) + attempts evs <= n ->
  consistent n (goto l evs w).
Proof.
  intros. unfold consistent, goto. cbn [pinger loc trace].
  rewrite replies_app, attempts_app. repeat split; assumption.
Qed.

Ltac count_events :=
  unfold attempts, len in *;
  cbn [filter isProbe length replies pending waiting inflight app] in *;
  rewrite ?app_nil_r, ?length_app in *;
  cbn [length] in *.

(** No step breaks the counts, as long as the counters do not wrap. *)
Lemma exec_consistent (n : Z) (a : Action) (w : World) :
  consistent n w -> n + 1 < 2 ^ 63 -> consistent (n + 1) (exec a w).
Proof.
  intros Hc Hn.
  assert (Hc' : consistent (n + 1) w).
  { destruct Hc as (? & ? & ? & ? & ?). repeat split; try assumption; lia. }
  pose proof Hc as (Hacc & Hr & Hrep & Hsent & Hatt).
  unfold exec. destruct a as [| r |].
  - (* Step *)
    destruct (loc w) eqn:Hl; try exact Hc'.
    + (* AtEntry *)
      destruct (finished (pinger w)); apply goto_consistent;
        try assumption; count_events; try assumption; lia.
    + (* AtLoop *)
      destruct (count =? 0).
      * apply finishAt_consistent; rewrite ?Hl; try reflexivity; assumption.
      * apply goto_consistent; try assumption; count_events;
          try assumption; lia.
    + (* AtCall *)
      apply goto_consistent; try assumption; count_events;
        try assumption; lia.
    + (* AtUpdate *)
      assert (Hlen : len (rtts (pinger w)) + 1 < 2 ^ 63).
      { cbn [pending waiting] in Hr, Hrep. rewrite <- Hr in Hrep.
        rewrite len_app in Hrep. change (len [Rtt packet]) with 1 in Hrep.
        lia. }
      pose proof (len_nonneg (rtts (pinger w))) as Hpos.
      assert (Hcount : add64 (PacketsRecv (pinger w)) 1
                       = len (rtts (pinger w)) + 1)
        by (unfold add64; rewrite Hacc; apply wrap_id; lia).
      destruct (updateStatistics_fields packet (pinger w) ltac:(lia))
        as (Hok & _).
      destruct (updateStatistics_frame packet (pinger w))
        as (Hs & _ & _ & _ & _ & _ & _ & _ & Hrecv & Hrtts).
      destruct (updateStatistics packet (pinger w)) as [c p'].
      cbn [fst snd] in *. subst c.
      unfold consistent. cbn [pinger loc trace].
      rewrite Hs, Hrtts, Hrecv, Hcount, len_app.
      count_events. repeat split; try assumption; lia.
    + (* AtLog *)
      apply goto_consistent; try assumption;
        destruct (Verbose (pinger w)); count_events; try assumption; lia.
    + (* AtIncr *)
      unfold consistent. cbn [pinger loc trace].
      cbn [set_PacketsSent PacketsSent PacketsRecv rtts].
      unfold add64. count_events. rewrite wrap_id by lia.
      repeat split; try assumption; lia.
    + (* AtSleep *)
      apply goto_consistent; try assumption; count_events;
        try assumption; lia.
  - (* PingReturns *)
    destruct (loc w) eqn:Hl; try (destruct r as [[e |] k |]; exact Hc').
    destruct r as [[e |] k |].
    + apply goto_consistent; try assumption;
        destruct (OnLost (pinger w)); count_events; try assumption; lia.
    + apply goto_consistent; try assumption;
        destruct (OnRecv (pinger w)); count_events;
        try assumption; try lia; rewrite Hr; reflexivity.
    + apply finishAt_consistent; rewrite ?Hl; try reflexivity;
        try assumption; cbn; lia.
  - (* CallFinish *)
    apply finishAt_consistent; try reflexivity; try assumption; lia.
Qed.

(** A pinger set up by [NewPinger] and the exported fields. *)
Lemma start_consistent v l r f a b t c :
  consistent 0 (start (configure v l r f (NewPinger a b t c))).
Proof.
  unfold consistent. cbn. repeat split; lia.
Qed.

Lemma run_consistent (sched : list Action) v l r f a b t c :
  len sched < 2 ^ 63 ->
  consistent (len sched)
    (run sched (start (configure v l r f (NewPinger a b t c)))).
Proof.
  induction sched as [| x sched IH] using rev_ind; intros Hn.
  - apply start_consistent.
  - rewrite len_app in *. change (len [x]) with 1 in *.
    rewrite run_snoc. apply exec_consistent; [| assumption].
    apply IH. lia.
Qed.

Lemma finishAt_steady (l : Loc) (w : World) :
  pending l = pending (loc w) -> steady w -> steady (finishAt l w).
Proof.
  intros Hp (Hacc & Hv). unfold finishAt, Finish, steady.
  destruct (finishOnce w); cbn [pinger loc]; rewrite Hp;
    split; solve [exact Hacc | exact Hv].
Qed.

Lemma exec_steady (n : Z) (a : Action) (w : World) :
  steady w -> consistent n w -> realistic a -> n + 1 < 2 ^ 63 ->
  steady (exec a w).
Proof.
  intros Hs Hc Ha Hn. pose proof Hs as (Hacc & Hv).
  pose proof Hc as (Hrecv & Hr & Hrep & Hsent & Hatt).
  assert (Hnil : forall l evs, pending l = [] -> steady (goto l evs w)).
  { intros l evs Hl. unfold steady, goto. cbn [pinger loc]. rewrite Hl.
    split; [exact Hacc | constructor]. }
  unfold exec. destruct a as [| r |].
  - destruct (loc w) eqn:Hl; try exact Hs.
    + destruct (finished (pinger w)); apply Hnil; reflexivity.
    + destruct (count =? 0); [| apply Hnil; reflexivity].
      apply finishAt_steady; [rewrite Hl; reflexivity | exact Hs].
    + apply Hnil; reflexivity.
    + assert (Hx : validRtt (Rtt packet)) by (inversion Hv; assumption).
      assert (Hlen : len (rtts (pinger w)) + 1 < 2 ^ 63).
      { cbn [pending waiting] in Hr, Hrep. rewrite <- Hr in Hrep.
        rewrite len_app in Hrep. change (len [Rtt packet]) with 1 in Hrep.
        lia. }
      destruct (updateStatistics_accumulated packet (pinger w) Hacc Hx Hlen)
        as (Hok & Hacc').
      destruct (updateStatistics packet (pinger w)) as [c p'].
      cbn [fst snd] in *. subst c.
      split; [exact Hacc' | constructor].
    + apply Hnil; reflexivity.
    + split; [exact Hacc | constructor].
    + apply Hnil; reflexivity.
  - destruct (loc w) eqn:Hl; try (destruct r as [[e |] k |]; exact Hs).
    destruct r as [[e |] k |].
    + apply Hnil; reflexivity.
    + cbn in Ha. unfold steady, goto. cbn [pinger loc pending].
      split; [exact Hacc | constructor; [exact Ha | constructor]].
    + apply finishAt_steady; [rewrite Hl; reflexivity | exact Hs].
  - apply finishAt_steady; [reflexivity | exact Hs].
Qed.

Lemma run_steady (sched : list Action) v l r f a b t c :
  Forall realistic sched -> len sched < 2 ^ 63 ->
  steady (run sched (start (configure v l r f (NewPinger a b t c)))).
Proof.
  induction sched as [| x sched IH] using rev_ind; intros Hall Hn.
  - split; [| constructor]. cbn. repeat split; try lia; constructor.
  - apply Forall_app in Hall. destruct Hall as [Hall Hx].
    inversion Hx; subst. rewrite len_app in *. change (len [x]) with 1 in *.
    rewrite run_snoc.
    apply (exec_steady (len sched)); try assumption.
    + apply IH; [assumption | lia].
    + apply run_consistent. lia.
Qed.

(* ================================================================= *)
(** ** Snapshots of a run *)




(** The run of the witness: two attempts, one reply. *)
Example run_two_probes :
  let k := mkPacket 0 64 20 12000000 in
  let w := run [Step; Step; Step; PingReturns (Returned None k); Step; Step;
                Step; Step; Step; Step;
                PingReturns (Returned (Some ReadError) k);
                Step; Step; Step; Step]
             (start (configure true false false true
                       (NewPinger "0.0.0.0" "1.1.1.1" (5 * Second) 2))) in
  loc w = Exited /\
  PacketsSent (pinger w) = 2 /\ PacketsRecv (pinger w) = 1 /\
  rtts (pinger w) = [12000000] /\ finished (pinger w) = true.
Proof. vm_compute. repeat split. Qed.

(** C7: in a run from a new pinger in which every round-trip time is one
    [time.Since] can return, every snapshot taken after at least one reply
    was recorded reports as minimum the least and as maximum the greatest
    of the recorded round-trip times, and a mean between the two. *)
Theorem snapshot_min_mean_max (sched : list Action)
    (verbose onLost onRecv onFinish : bool) (localIP remoteIP : string)
    (timeout count : Z)
    (Hreal : Forall realistic sched)
    (Hlen : len sched < 2 ^ 63) :
  let w := run sched
             (start (configure verbose onLost onRecv onFinish
                       (NewPinger localIP remoteIP timeout count))) in
  let s := Statistics (pinger w) in
  1 <= Stats.PacketsRecv s ->
  Stats.MinRtt s = minimum (Stats.Rtts s) /\
  Stats.MaxRtt s = maximum (Stats.Rtts s) /\
  Stats.MinRtt s <= Stats.AvgRtt s <= Stats.MaxRtt s.
Proof.
  intros w s.
  destruct (run_steady sched verbose onLost onRecv onFinish
              localIP remoteIP timeout count Hreal Hlen)
    as ((Hrecv & _ & Hacc) & _).
  fold w in Hrecv, Hacc. subst s.
  cbn [Statistics Stats.PacketsRecv Stats.MinRtt Stats.MaxRtt Stats.AvgRtt
       Stats.Rtts].
  intros H1. destruct (rtts (pinger w)) as [| x l] eqn:Hl.
  - rewrite Hrecv in H1. cbn in H1. lia.
  - destruct Hacc as (Hmin & Hmax & _ & Havg & _). repeat split; tauto.
Qed.

Lemma snapshot_min_mean_max_witness :
  let w := run [Step; Step; Step;
                PingReturns (Returned None (mkPacket 0 64 20 12000000));
                Step; Step; Step; Step; Step; Step;
                PingReturns (Returned None (mkPacket 1 64 20 8000000));
                Step; CallFinish]
             (start (configure true false false true
                       (NewPinger "0.0.0.0" "1.1.1.1" (5 * Second) 2))) in
  let s := Statistics (pinger w) in
  Stats.Rtts s = [12000000; 8000000] /\
  Stats.MinRtt s = minimum (Stats.Rtts s) /\
  Stats.MaxRtt s = maximum (Stats.Rtts s) /\
  Stats.MinRtt s <= Stats.AvgRtt s <= Stats.MaxRtt s.
Proof.
  split; [vm_compute; reflexivity |].
  apply (snapshot_min_mean_max
           [Step; Step; Step;
            PingReturns (Returned None (mkPacket 0 64 20 12000000));
            Step; Step; Step; Step; Step; Step;
            PingReturns (Returned None (mkPacket 1 64 20 8000000));
            Step; CallFinish]
           true false false true "0.0.0.0" "1.1.1.1" (5 * Second) 2).
  - repeat (apply Forall_cons;
            [first [exact I | vm_compute; split; congruence] |]).
    apply Forall_nil.
  - vm_compute. reflexivity.
  - vm_compute. congruence.
Defined.

(* ================================================================= *)
(** ** Termination *)

(** [updateStatistics] panics exactly when the incremented reply counter
    is zero. *)
Lemma updateStatistics_completion (pkt : Packet) (p : Pinger) :
  fst (updateStatistics pkt p)
  = if add64 (PacketsRecv p) 1 =? 0 then Panic else Normal.
Proof.
  unfold updateStatistics, quot64.
  set (n := add64 (PacketsRecv p) 1) in *.
  cbn -[Z.quot wrap add64 sub64 mul64 Z.ltb Z.eqb].
  fold n.
  destruct ((n =? 1) || (Rtt pkt <? minRtt p));
    cbn -[Z.quot wrap add64 sub64 mul64 Z.ltb Z.eqb];
    destruct (maxRtt p <? Rtt pkt);
    cbn -[Z.quot wrap add64 sub64 mul64 Z.ltb Z.eqb];
    destruct (n =? 0); reflexivity.
Qed.

Lemma probes_app (tr tr' : list Event) :
  probes (tr ++ tr') = probes tr ++ probes tr'.
Proof. apply filter_app. Qed.

Lemma finishAt_view (l : Loc) (w : World) :
  loc (finishAt l w) = l /\
  probes (trace (finishAt l w)) = probes (trace w) /\
  PacketsSent (pinger (finishAt l w)) = PacketsSent (pinger w) /\
  PacketsRecv (pinger (finishAt l w)) = PacketsRecv (pinger w) /\
  rtts (pinger (finishAt l w)) = rtts (pinger w).
Proof.
  unfold finishAt, Finish.
  destruct (finishOnce w); cbn [loc trace pinger];
    [rewrite app_nil_r; repeat split |].
  rewrite probes_app. destruct (OnFinish _); cbn; rewrite app_nil_r;
    repeat split.
Qed.

Lemma exec_not_AtEntry (a : Action) (w : World) :
  loc w <> AtEntry -> loc (exec a w) <> AtEntry.
Proof.
  intros H. unfold exec.
  destruct a as [| [[e |] k |] |]; destruct (loc w) eqn:Hl;
    try congruence;
    repeat match goal with
           | |- context [if ?c then _ else _] => destruct c
           | |- context [updateStatistics ?k ?p] =>
               destruct (updateStatistics k p) as [[|] ?]
           | |- context [finishAt ?l ?w] =>
               rewrite (proj1 (finishAt_view l w))
           end;
    first [discriminate | rewrite Hl; discriminate | congruence].
Qed.

Ltac finish_views :=
  repeat match goal with
         | |- context [finishAt ?l ?w] =>
             let E1 := fresh in let E2 := fresh in let E3 := fresh in
             let E4 := fresh in let E5 := fresh in
             destruct (finishAt_view l w) as (E1 & E2 & E3 & E4 & E5);
             rewrite ?E1, ?E2, ?E3, ?E4, ?E5; clear E1 E2 E3 E4 E5
         end.

(** A step of [Run], or a [Finish] by another goroutine, does the same to
    the loop in two worlds that differ in what [Finish] has done. *)
Lemma exec_sameLoop (a : Action) (w1 w2 : World) :
  sameLoop w1 w2 -> loc w1 <> AtEntry -> sameLoop (exec a w1) (exec a w2).
Proof.
  intros (Hl & Hp & Hs & Hr & Ht) Hne. unfold sameLoop, exec.
  rewrite <- Hl.
  destruct a as [| [[e |] k |] |]; destruct (loc w1) eqn:Hl1;
    try congruence;
    try (repeat split; assumption).
  all: try (destruct (count =? 0)).
  all: lazymatch goal with |- context [updateStatistics] =>
           (pose proof (updateStatistics_completion packet (pinger w1)) as C1;
            pose proof (updateStatistics_completion packet (pinger w2)) as C2;
            rewrite Hr in C1; rewrite <- C2 in C1; clear C2;
            pose proof (updateStatistics_frame packet (pinger w1)) as F1;
            pose proof (updateStatistics_frame packet (pinger w2)) as F2;
            cbv zeta in F1, F2;
            destruct F1 as (? & _ & _ & _ & _ & _ & _ & _ & ? & ?);
            destruct F2 as (? & _ & _ & _ & _ & _ & _ & _ & ? & ?);
            destruct (updateStatistics packet (pinger w1)) as [c1 p1];
            destruct (updateStatistics packet (pinger w2)) as [c2 p2];
            cbn [fst snd] in *;
            subst c1; destruct c2)
       | _ => idtac end.
  all: finish_views; unfold goto; cbn [loc trace pinger set_PacketsSent
                                       PacketsSent PacketsRecv rtts];
    rewrite ?probes_app, ?Hl1; cbn [loc trace pinger];
    repeat match goal with
           | |- context [if ?c then _ else _] => destruct c
           end;
    cbn [probes filter isProbe]; rewrite ?app_nil_r;
    repeat split; congruence.
Qed.

Lemma finish_sameLoop (w1 w2 : World) :
  sameLoop w1 w2 -> sameLoop (exec CallFinish w1) w2.
Proof.
  intros (Hl & Hp & Hs & Hr & Ht). unfold sameLoop, exec.
  finish_views. repeat split; assumption.
Qed.

Lemma run_withoutFinish (sched : list Action) :
  forall w1 w2 : World,
    sameLoop w1 w2 -> loc w1 <> AtEntry ->
    sameLoop (run sched w1) (run (withoutFinish sched) w2).
Proof.
  induction sched as [| a sched IH]; intros w1 w2 Hs Hne; [exact Hs |].
  destruct a as [| r |]; cbn [withoutFinish filter isCallFinish negb run
                              fold_left];
    apply IH;
    solve [apply exec_sameLoop; assumption
          | apply finish_sameLoop; assumption
          | apply exec_not_AtEntry; assumption].
Qed.

(** No step writes the configuration of the pinger. *)
Lemma finishAt_config (l : Loc) (w : World) :
  Count (pinger (finishAt l w)) = Count (pinger w) /\
  OnFinish (pinger (finishAt l w)) = OnFinish (pinger w).
Proof.
  unfold finishAt, Finish. destruct (finishOnce w); split; reflexivity.
Qed.

Lemma exec_config (a : Action) (w : World) :
  Count (pinger (exec a w)) = Count (pinger w) /\
  OnFinish (pinger (exec a w)) = OnFinish (pinger w).
Proof.
  unfold exec.
  destruct a as [| [[e |] k |] |]; destruct (loc w) eqn:Hl;
    try (split; reflexivity);
    try (destruct (count =? 0));
    try (pose proof (updateStatistics_frame packet (pinger w)) as F;
         cbv zeta in F;
         destruct F as (_ & _ & ? & _ & _ & _ & _ & ? & _);
         destruct (updateStatistics packet (pinger w)) as [[|] p'];
         cbn [fst snd] in *);
    repeat match goal with
           | |- context [finishAt ?l ?w] =>
               let E1 := fresh in let E2 := fresh in
               destruct (finishAt_config l w) as (E1 & E2);
               rewrite ?E1, ?E2; clear E1 E2
           | |- context [if ?c then _ else _] => destruct c
           end;
    cbn [pinger goto]; split; solve [reflexivity | assumption].
Qed.

Lemma attempts_goto (l : Loc) (evs : list Event) (w : World) :
  attempts (trace (goto l evs w)) = attempts (trace w) + attempts evs.
Proof. unfold goto. cbn [trace]. apply attempts_app. Qed.

Lemma attempts_finishAt (l : Loc) (w : World) :
  attempts (trace (finishAt l w)) = attempts (trace w).
Proof.
  unfold attempts. fold (probes (trace (finishAt l w))).
  destruct (finishAt_view l w) as (_ & -> & _). reflexivity.
Qed.

Lemma attempts_nil : attempts [] = 0.
Proof. reflexivity. Qed.

Lemma attempts_cons (e : Event) (tr : list Event) :
  attempts (e :: tr) = (if isProbe e then 1 else 0) + attempts tr.
Proof.
  unfold attempts, len. cbn [filter]. destruct (isProbe e); cbn [length]; lia.
Qed.

(** The budget is spent one attempt at a time. *)
Lemma exec_budget (c : Z) (a : Action) (w : World) :
  - 2 ^ 63 <= c < 2 ^ 63 ->
  Count (pinger w) = c ->
  budget c (attempts (trace w)) (loc w) ->
  budget c (attempts (trace (exec a w))) (loc (exec a w)).
Proof.
  intros Hc HC Hb. pose proof (len_nonneg (filter isProbe (trace w))) as Hpos.
  fold (attempts (trace w)) in Hpos. unfold exec.
  destruct a as [| [[e |] k |] |]; destruct (loc w) eqn:Hl;
    try exact Hb; try (rewrite Hl; exact Hb);
    try (destruct (Z.eqb_spec count 0));
    try (destruct (Z.ltb_spec 0 count));
    try (destruct (updateStatistics packet (pinger w)) as [[|] p']);
    try (destruct (finished (pinger w)));
    rewrite ?attempts_finishAt, ?attempts_goto,
      ?(proj1 (finishAt_view _ _));
    cbn [goto loc trace budget] in *;
    unfold sub64; rewrite ?wrap_id by lia;
    repeat match goal with
           | |- context [if ?b then _ else _] => destruct b
           end;
    rewrite ?attempts_cons, ?attempts_nil; cbn [isProbe];
    lia.
Qed.

Lemma run_budget (sched : list Action) (p : Pinger) :
  - 2 ^ 63 <= Count p < 2 ^ 63 ->
  Count (pinger (run sched (start p))) = Count p /\
  budget (Count p) (attempts (trace (run sched (start p))))
    (loc (run sched (start p))).
Proof.
  intros Hc. induction sched as [| a sched IH] using rev_ind.
  - split; reflexivity.
  - rewrite run_snoc. destruct IH as (HC & Hb). split.
    + rewrite (proj1 (exec_config a _)). exact HC.
    + apply exec_budget; assumption.
Qed.

(** [Run] on a finished pinger returns at once. *)
Lemma run_finished (sched : list Action) (p : Pinger) :
  finished p = true ->
  let w := run sched (start p) in
  finished (pinger w) = true /\ attempts (trace w) = 0 /\
  (loc w = AtEntry \/ loc w = Exited).
Proof.
  intros Hf. induction sched as [| a sched IH] using rev_ind.
  - cbn. repeat split; [exact Hf | left; reflexivity].
  - cbv zeta in *. rewrite run_snoc.
    destruct IH as (Hfin & Hatt & Hloc).
    set (w := run sched (start p)) in *. unfold exec.
    assert (HF : forall l, finished (pinger (finishAt l w)) = true).
    { intros l. unfold finishAt, Finish. destruct (finishOnce w);
        [exact Hfin | reflexivity]. }
    destruct a as [| [[e |] k |] |]; destruct Hloc as [Hl | Hl]; rewrite Hl;
      rewrite ?Hfin, ?attempts_finishAt, ?attempts_goto, ?HF,
        ?(proj1 (finishAt_view _ _));
      cbn [goto pinger loc]; rewrite ?attempts_nil;
      repeat split; try assumption; try lia; auto.
Qed.




(** The run of the witness returns after its one probe, which was
    answered after the engine had finished. *)
Example run_one_probe :
  let w := run [Step; Step; Step; CallFinish;
                PingReturns (Returned None (mkPacket 0 64 20 12000000));
                Step; Step; Step; Step; Step]
             (start (configure false false false true
                       (NewPinger "0.0.0.0" "1.1.1.1" (5 * Second) 1))) in
  loc w = Exited /\ attempts (trace w) = 1 /\
  PacketsSent (pinger w) = 1 /\ PacketsRecv (pinger w) = 1.
Proof. vm_compute. repeat split. Qed.

(* ================================================================= *)
(** ** Finishing *)

Lemma finishAt_gated (f : bool) (l : Loc) (w : World) :
  gated f w -> gated f (finishAt l w) /\ finishOnce (finishAt l w) = true.
Proof.
  intros (Hf & Hg). unfold gated, finishAt, Finish, finishes, observerCalls.
  destruct (finishOnce w); cbn [pinger finishOnce trace].
  - rewrite app_nil_r. repeat split; tauto.
  - destruct Hg as (H1 & H2). unfold finishes, observerCalls in *.
    cbn [set_finished OnFinish finished]. rewrite Hf, !filter_app, H1, H2.
    destruct f; cbn; repeat split.
Qed.

Lemma goto_gated (f : bool) (l : Loc) (evs : list Event) (w : World) :
  finishes evs = [] -> observerCalls evs = [] ->
  gated f w -> gated f (goto l evs w).
Proof.
  intros H1 H2 (Hf & Hg). unfold gated, goto, finishes, observerCalls in *.
  cbn [pinger finishOnce trace]. rewrite !filter_app, H1, H2, !app_nil_r.
  split; assumption.
Qed.

Lemma exec_gated (f : bool) (a : Action) (w : World) :
  gated f w -> gated f (exec a w).
Proof.
  intros Hg. unfold exec.
  destruct a as [| [[e |] k |] |]; destruct (loc w) eqn:Hl;
    try exact Hg;
    try (apply finishAt_gated; exact Hg);
    try (apply goto_gated; [| | exact Hg];
         repeat match goal with
                | |- context [if ?c then _ else _] => destruct c
                end; reflexivity).
  - destruct (finished (pinger w)); apply goto_gated; try reflexivity;
      exact Hg.
  - destruct (count =? 0); [apply finishAt_gated; exact Hg |].
    apply goto_gated; try reflexivity; exact Hg.
  - pose proof (updateStatistics_frame packet (pinger w)) as F.
    cbv zeta in F. destruct F as (_ & Hfin & _ & _ & _ & _ & _ & Hon & _).
    destruct (updateStatistics packet (pinger w)) as [[|] p'];
      cbn [fst snd] in *.
    + destruct Hg as (Hf & Hg). unfold gated. cbn [pinger finishOnce trace].
      rewrite Hon, Hfin. split; assumption.
    + apply finishAt_gated. destruct Hg as (Hf & Hg). unfold gated.
      cbn [pinger finishOnce trace]. rewrite Hon, Hfin. split; assumption.
Qed.

(** X6: in a process with one pinger the engine finishes at most once,
    whoever calls [Finish] and however often; once [Finish] has been
    called the pinger is finished, and its observer, if set, has been
    called exactly once. *)
Lemma finish_exactly_once (sched : list Action) (p : Pinger) :
  let w := run sched (start p) in
  (length (finishes (trace w)) <= 1)%nat /\
  (finishOnce w = true ->
   finished (pinger w) = true /\
   length (finishes (trace w)) = 1%nat /\
   length (observerCalls (trace w)) = (if OnFinish p then 1%nat else 0%nat)).
Proof.
  assert (H : gated (OnFinish p) (run sched (start p))).
  { induction sched as [| a sched IH] using rev_ind.
    - split; [reflexivity | split; reflexivity].
    - rewrite run_snoc. apply exec_gated, IH. }
  cbv zeta. destruct H as (_ & H).
  destruct (finishOnce (run sched (start p))).
  - split; [lia | intros _; exact H].
  - destruct H as (-> & _). split; [cbn; lia | discriminate].
Qed.

(** C2 fails on the code.  [finishOnce] belongs to the package, not to
    the pinger: after a first pinger has finished, [Finish] on a second
    one does nothing.  Its [Run] returns, and [Finish] is called twice
    more, yet it is never marked finished and its observer is never
    called. *)
Theorem second_pinger_never_finishes :
  let p1 := configure false false false true
              (NewPinger "0.0.0.0" "1.1.1.1" (5 * Second) 0) in
  let p2 := configure false false false true
              (NewPinger "0.0.0.0" "8.8.8.8" (5 * Second) 0) in
  let w1 := run [Step; Step] (start p1) in
  let w2 := run [Step; Step; CallFinish; CallFinish] (startAfter w1 p2) in
  (loc w1 = Exited /\ finished (pinger w1) = true /\
   length (observerCalls (trace w1)) = 1%nat) /\
  (loc w2 = Exited /\ finished (pinger w2) = false /\ trace w2 = []).
Proof. vm_compute. repeat split. Qed.

(** The first call of [Finish] in a process marks the pinger finished
    and hands its observer a snapshot taken then. *)
Lemma Finish_first (p : Pinger) :
  OnFinish p = true ->
  Finish false p
  = (true, set_finished true p,
     [Finished; CallOnFinish (Statistics (set_finished true p))]).
Proof. intros H. unfold Finish. cbn [set_finished OnFinish]. rewrite H. reflexivity. Qed.

(* ================================================================= *)
(** ** A budget of zero *)

Lemma quiet_attempts (tr : list Event) : Forall quiet tr -> attempts tr = 0.
Proof.
  induction 1 as [| e tr He _ IH]; [reflexivity |].
  rewrite attempts_cons, IH. destruct e; cbn in He |- *; try contradiction;
    reflexivity.
Qed.

Lemma finishAt_idle (l : Loc) (w : World) :
  PacketsSent (pinger w) = 0 -> PacketsRecv (pinger w) = 0 ->
  Forall quiet (trace w) ->
  PacketsSent (pinger (finishAt l w)) = 0 /\
  PacketsRecv (pinger (finishAt l w)) = 0 /\
  Forall quiet (trace (finishAt l w)) /\
  Count (pinger (finishAt l w)) = Count (pinger w) /\
  loc (finishAt l w) = l.
Proof.
  intros Hs Hr Hq. unfold finishAt, Finish.
  destruct (finishOnce w); cbn [pinger trace loc].
  - rewrite app_nil_r. repeat split; assumption.
  - split; [exact Hs |]. split; [exact Hr |].
    split; [| split; reflexivity].
    apply Forall_app. split; [assumption |].
    apply Forall_cons; [exact I |].
    destruct (OnFinish _); [| apply Forall_nil].
    apply Forall_cons; [| apply Forall_nil].
    split; [exact Hs | exact Hr].
Qed.

Lemma exec_idle (a : Action) (w : World) : idle w -> idle (exec a w).
Proof.
  intros (Hs & Hr & Hq & Hl). unfold exec.
  destruct a as [| r |].
  - destruct Hl as [(Hl & Hc) | [Hl | Hl]]; rewrite Hl.
    + destruct (finished (pinger w)); unfold idle, goto;
        cbn [pinger trace loc]; rewrite app_nil_r, ?Hc;
        repeat split; auto.
    + cbn [Z.eqb].
      destruct (finishAt_idle Exited w Hs Hr Hq) as (? & ? & ? & ? & ?).
      repeat split; auto.
    + repeat split; auto.
  - assert (Hw : idle w) by (repeat split; assumption).
    destruct Hl as [(Hl & Hc) | [Hl | Hl]]; rewrite Hl;
      destruct r as [[e |] k |]; exact Hw.
  - destruct (finishAt_idle (loc w) w Hs Hr Hq) as (? & ? & ? & HC & HL).
    repeat split; try assumption. rewrite HL, HC. exact Hl.
Qed.


(* ================================================================= *)
(** ** Privilege check *)

Lemma probeAgain_done (dials : list (option string)) (s : Privilege) :
  PrivOnce s = true -> probeAgain dials s = s.
Proof.
  intros H. unfold probeAgain.
  induction dials as [| d dials IH]; [reflexivity |].
  cbn [fold_left]. unfold HasPrivilege at 2. rewrite H. exact IH.
Qed.

(** X15: the privilege is probed once: whatever [DialIP] would return later,
    every call of [HasPrivilege] after [init] returns what the first
    dial decided and leaves the package variables as [init] left them;
    [Privileged] holds exactly when that dial succeeded, and on a failure
    [NonPrivMsg] is its error text. *)
Theorem HasPrivilege_cached (first : option string)
    (dials : list (option string)) (again : option string) :
  HasPrivilege again (probeAgain dials (init first))
  = (Privileged (init first), init first) /\
  (Privileged (init first) = true <-> first = None) /\
  (forall msg, first = Some msg ->
               NonPrivMsg (init first) = msg /\ Privileged (init first) = false).
Proof.
  assert (Hdone : PrivOnce (init first) = true)
    by (destruct first; reflexivity).
  rewrite (probeAgain_done dials _ Hdone). split.
  - unfold HasPrivilege at 1. rewrite Hdone. reflexivity.
  - split.
    + destruct first; cbn; split; congruence.
    + intros msg ->. split; reflexivity.
Qed.

(* ================================================================= *)
(** ** More on the probe cycle *)

Lemma readInto_length (rb d : list byte) :
  length (readInto rb d) = length rb.
Proof.
  unfold readInto. rewrite length_app, length_firstn, length_skipn. lia.
Qed.

Lemma readInto_head (rb d : list byte) (b0 : byte) :
  rb <> [] -> nth 0 (readInto rb (b0 :: d)) "000"%byte = b0.
Proof.
  intros H. destruct rb as [| r rb]; [contradiction |]. reflexivity.
Qed.

Lemma ipv4Payload_cases (b : list byte) :
  ipv4Payload b
  = if len b <? 20 then Some b
    else if len b <? headerLength b then None
         else Some (skipn (Z.to_nat (headerLength b)) b).
Proof. unfold ipv4Payload. rewrite hdrlen_headerLength. reflexivity. Qed.

(** X12: [ipv4Payload] returns on every buffer of at least 60 bytes, and
    whatever it returns is the buffer less a prefix of at most 60 bytes, a
    whole number of 32-bit words; from a buffer shorter than 20 bytes
    nothing is taken. *)
Theorem ipv4Payload_suffix (b : list byte) :
  (60 <= len b -> exists r, ipv4Payload b = Some r) /\
  (forall r, ipv4Payload b = Some r ->
             exists h, b = h ++ r /\ 0 <= len h <= 60 /\ len h mod 4 = 0 /\
                       (len b < 20 -> h = [])).
Proof.
  unfold ipv4Payload. rewrite hdrlen_headerLength.
  pose proof (headerLength_range b) as Hr. split.
  - intros H. destruct (Z.ltb_spec (len b) 20); [lia |].
    destruct (Z.ltb_spec (len b) (headerLength b)); [lia |]. eexists.
    reflexivity.
  - intros r H. destruct (Z.ltb_spec (len b) 20) as [Hs | Hs].
    + inversion H; subst. exists []. repeat split; cbn; lia.
    + destruct (Z.ltb_spec (len b) (headerLength b)) as [? | Hfit];
        [discriminate |].
      inversion H; subst. exists (firstn (Z.to_nat (headerLength b)) b).
      assert (Hl : len (firstn (Z.to_nat (headerLength b)) b) = headerLength b)
        by (unfold len in *; rewrite length_firstn; lia).
      rewrite Hl. repeat split; try lia.
      * symmetry. apply firstn_skipn.
      * unfold headerLength. rewrite Z.mul_comm. apply Z.mod_mul. lia.
Qed.

Section ProbeCycleMore.

Variable icmpv4EchoRequest icmpv6EchoRequest : Z.
Variable Marshal : icmpMessage -> option (list byte).
Variable parseICMPMessage : list byte -> option icmpMessage.

Local Abbreviation loop :=
  (readLoop icmpv4EchoRequest icmpv6EchoRequest parseICMPMessage).
Local Abbreviation ping :=
  (Ping icmpv4EchoRequest icmpv6EchoRequest Marshal parseICMPMessage).

Lemma readLoop_cons since d rest rb packet :
  loop since (Some d :: rest) rb packet
  = match nth_error (readInto rb d) 8 with
    | None => Panicked
    | Some ttl =>
        match ipv4Payload (readInto rb d) with
        | None => Panicked
        | Some rb1 =>
            match parseICMPMessage rb1 with
            | None =>
                Returned (Some ParseError)
                  (set_Nbytes (len rb1) (set_TTL (byteZ ttl) packet))
            | Some m =>
                if isEchoRequest icmpv4EchoRequest icmpv6EchoRequest (Typ m)
                then loop since rest rb1
                       (set_Nbytes (len rb1) (set_TTL (byteZ ttl) packet))
                else Returned None
                       (set_Rtt since
                          (set_Nbytes (len rb1) (set_TTL (byteZ ttl) packet)))
            end
        end
    end.
Proof. reflexivity. Qed.

Lemma readLoop_result since rs :
  forall rb packet err packet',
    loop since rs rb packet = Returned err packet' ->
    Seq packet' = Seq packet /\
    (err = None -> Rtt packet' = since) /\
    (err <> None -> Rtt packet' = Rtt packet).
Proof.
  induction rs as [| [d |] rs IH]; intros rb packet err packet' H;
    cbn -[readInto nth_error ipv4Payload len byteZ] in H.
  - inversion H; subst. repeat split; congruence.
  - destruct (nth_error (readInto rb d) 8) as [ttl |]; [| discriminate].
    destruct (ipv4Payload (readInto rb d)) as [rb1 |]; [| discriminate].
    destruct (parseICMPMessage rb1) as [m |].
    + destruct (isEchoRequest _ _ (Typ m)).
      * apply IH in H. exact H.
      * inversion H; subst. repeat split; congruence.
    + inversion H; subst. repeat split; congruence.
  - inversion H; subst. repeat split; congruence.
Qed.

(** X8: whenever [Ping] returns, the packet carries the sequence number
    [Ping] was called with; its round-trip time is the elapsed time when
    there is no error and 0 when there is one, whichever step failed. *)
Theorem Ping_packet (e : PingEnv) (p : Pinger) (seq : Z)
    (err : option PingError) (packet : Packet)
    (H : ping e p seq = Returned err packet) :
  Seq packet = seq /\
  (err = None -> Rtt packet = elapsed e) /\
  (err <> None -> Rtt packet = 0).
Proof.
  unfold Ping in H.
  destruct (dialOk e); cbn [negb] in H;
    [| inversion H; subst; repeat split; congruence].
  destruct (Marshal _) as [wb |];
    [| inversion H; subst; repeat split; congruence].
  destruct (writeOk e); cbn [negb] in H;
    [| inversion H; subst; repeat split; congruence].
  apply readLoop_result in H. exact H.
Qed.

(** X9: [Ping] panics on a datagram whose first byte declares a header
    longer than the read buffer, which has 20 bytes more than the
    request; when that datagram is the only one delivered this is the
    only way for [Ping] to panic. *)
Theorem Ping_panics_on_long_header (e : PingEnv) (p : Pinger) (seq : Z)
    (wb : list byte) (b0 : byte) (d : list byte)
    (rest : list (option (list byte)))
    (Hdial : dialOk e = true)
    (Hwb : Marshal (echoRequest icmpv4EchoRequest (Getpid e) seq) = Some wb)
    (Hwrite : writeOk e = true)
    (Hreads : reads e = Some (b0 :: d) :: rest) :
  (20 + len wb < headerLength [b0] -> ping e p seq = Panicked) /\
  (rest = [] -> ping e p seq = Panicked -> 20 + len wb < headerLength [b0]).
Proof.
  unfold Ping. rewrite Hdial, Hwb, Hwrite, Hreads. cbn [negb].
  set (rb := repeat "000"%byte (20 + length wb)).
  assert (Hlen : length rb = (20 + length wb)%nat) by apply repeat_length.
  assert (Hne : rb <> []) by (unfold rb; discriminate).
  rewrite readLoop_cons.
  pose proof (readInto_length rb (b0 :: d)) as Hrl.
  destruct (nth_error (readInto rb (b0 :: d)) 8) as [ttl |] eqn:H8.
  2: { apply nth_error_None in H8. lia. }
  assert (Hhdr : headerLength (readInto rb (b0 :: d)) = headerLength [b0]).
  { unfold headerLength. rewrite (readInto_head rb d b0 Hne). reflexivity. }
  assert (Hl : len (readInto rb (b0 :: d)) = 20 + len wb)
    by (unfold len; rewrite Hrl, Hlen; lia).
  pose proof (len_nonneg wb) as Hwbpos.
  rewrite ipv4Payload_cases, Hhdr, Hl.
  destruct (Z.ltb_spec (20 + len wb) 20); [lia |].
  destruct (Z.ltb_spec (20 + len wb) (headerLength [b0])) as [Hlong | Hfit].
  - split; [reflexivity | intros; lia].
  - split; [intros; lia |]. intros -> HP.
    destruct (parseICMPMessage _) as [m |]; [| discriminate].
    destruct (isEchoRequest _ _ (Typ m)); discriminate.
Qed.


End ProbeCycleMore.

Lemma Ping_packet_witness :
  let packet := mkPacket 3 64 20 12000000 in
  Seq packet = 3 /\
  (@None PingError = None -> Rtt packet = 12000000) /\
  (@None PingError <> None -> Rtt packet = 0).
Proof.
  apply (Ping_packet 8 128 (fun _ => Some (icmpBytes "008"%byte))
           parseICMPMessage_spec
           (mkEnv 1 true true [Some replyDatagram] 12000000)
           (NewPinger "0.0.0.0" "1.1.1.1" (5 * Second) 1) 3
           None (mkPacket 3 64 20 12000000)).
  reflexivity.
Defined.

Lemma Ping_panics_on_long_header_witness :
  let e := mkEnv 1 true true [Some longHeader] 12000000 in
  let p := NewPinger "0.0.0.0" "1.1.1.1" (5 * Second) 1 in
  let M := fun _ : icmpMessage => Some (icmpBytes "008"%byte) in
  (20 + len (icmpBytes "008"%byte) < headerLength ["O"%byte] ->
   Ping 8 128 M parseICMPMessage_spec e p 3 = Panicked) /\
  (@nil (option (list byte)) = [] ->
   Ping 8 128 M parseICMPMessage_spec e p 3 = Panicked ->
   20 + len (icmpBytes "008"%byte) < headerLength ["O"%byte]).
Proof.
  apply (Ping_panics_on_long_header 8 128
           (fun _ => Some (icmpBytes "008"%byte)) parseICMPMessage_spec
           (mkEnv 1 true true [Some longHeader] 12000000)
           (NewPinger "0.0.0.0" "1.1.1.1" (5 * Second) 1) 3
           (icmpBytes "008"%byte) "O"%byte (repeat "000"%byte 19) []);
    reflexivity.
Defined.



(* ================================================================= *)
(** ** More on the accumulator and the end of a run *)

(** What [updateStatistics] writes to the sum of squares and to the
    deviation, when the incremented reply counter is not zero. *)
Lemma updateStatistics_deviation (pkt : Packet) (p : Pinger) :
  add64 (PacketsRecv p) 1 <> 0 ->
  stddevm2 (snd (updateStatistics pkt p))
  = add64 (stddevm2 p)
      (mul64 (sub64 (Rtt pkt) (avgRtt p))
         (sub64 (Rtt pkt) (avgRtt (snd (updateStatistics pkt p))))) /\
  stdDevRtt (snd (updateStatistics pkt p))
  = int64_of_float
      (PrimFloat.sqrt
         (float64_of_int
            (wrap (Z.quot (stddevm2 (snd (updateStatistics pkt p)))
                          (add64 (PacketsRecv p) 1))))).
Proof.
  intros Hn. unfold updateStatistics, quot64.
  set (n := add64 (PacketsRecv p) 1) in *.
  cbn -[Z.quot wrap add64 sub64 mul64 Z.ltb Z.eqb int64_of_float
        float64_of_int PrimFloat.sqrt].
  fold n.
  destruct ((n =? 1) || (Rtt pkt <? minRtt p));
    cbn -[Z.quot wrap add64 sub64 mul64 Z.ltb Z.eqb int64_of_float
          float64_of_int PrimFloat.sqrt];
    destruct (maxRtt p <? Rtt pkt);
    cbn -[Z.quot wrap add64 sub64 mul64 Z.ltb Z.eqb int64_of_float
          float64_of_int PrimFloat.sqrt];
    destruct (Z.eqb_spec n 0); try contradiction;
    cbn -[Z.quot wrap add64 sub64 mul64 Z.ltb Z.eqb int64_of_float
          float64_of_int PrimFloat.sqrt];
    split; reflexivity.
Qed.

Lemma sqrt_zero :
  int64_of_float (PrimFloat.sqrt (float64_of_int (wrap 0))) = 0.
Proof. vm_compute. reflexivity. Qed.

Lemma settled_step (x k : Z) (p : Pinger) :
  validRtt x -> 0 <= k -> k + 1 < 2 ^ 63 ->
  (k = 0 -> maxRtt p = 0 /\ avgRtt p = 0 /\ stddevm2 p = 0) ->
  (1 <= k -> settled x k p) ->
  PacketsRecv p = k ->
  settled x (k + 1) (snd (updateStatistics (set_Rtt x Packet0) p)).
Proof.
  intros Hx Hk Hk1 H0 H1 Hrecv. unfold validRtt in Hx.
  assert (Hcount : add64 (PacketsRecv p) 1 = k + 1)
    by (unfold add64; rewrite Hrecv; apply wrap_id; lia).
  destruct (updateStatistics_fields (set_Rtt x Packet0) p ltac:(lia))
    as (_ & Hmin & Hmax & Havg).
  destruct (updateStatistics_deviation (set_Rtt x Packet0) p ltac:(lia))
    as (Hm2 & Hdev).
  destruct (updateStatistics_frame (set_Rtt x Packet0) p)
    as (_ & _ & _ & _ & _ & _ & _ & _ & Hrecv' & _).
  change (Rtt (set_Rtt x Packet0)) with x in *.
  rewrite Hcount in *. unfold settled.
  assert (Havg' : avgRtt (snd (updateStatistics (set_Rtt x Packet0) p)) = x).
  { rewrite Havg. unfold add64, sub64.
    destruct (Z.eq_dec k 0) as [-> | Hne].
    - destruct (H0 eq_refl) as (_ & -> & _). rewrite Z.sub_0_r.
      rewrite (wrap_id x) by lia. change (0 + 1) with 1.
      rewrite Z.quot_1_r, (wrap_id x) by lia. rewrite Z.add_0_l.
      apply wrap_id. lia.
    - destruct (H1 ltac:(lia)) as (_ & _ & _ & -> & _).
      rewrite Z.sub_diag. change (wrap 0) with 0.
      rewrite Z.quot_0_l by lia. change (wrap 0) with 0.
      rewrite Z.add_0_r. apply wrap_id. lia. }
  assert (Hm2' : stddevm2 (snd (updateStatistics (set_Rtt x Packet0) p)) = 0).
  { rewrite Hm2, Havg'. unfold sub64 at 2. rewrite Z.sub_diag.
    change (wrap 0) with 0. unfold mul64. rewrite Z.mul_0_r.
    change (wrap 0) with 0. unfold add64. rewrite Z.add_0_r.
    destruct (Z.eq_dec k 0) as [-> | Hne].
    - destruct (H0 eq_refl) as (_ & _ & ->). reflexivity.
    - destruct (H1 ltac:(lia)) as (_ & _ & _ & _ & -> & _). reflexivity. }
  split; [exact Hrecv' |]. split; [| split; [| split; [exact Havg' |]]].
  - rewrite Hmin.
    destruct (Z.eq_dec k 0) as [-> | Hne]; [reflexivity |].
    destruct (H1 ltac:(lia)) as (_ & -> & _).
    destruct (Z.eqb_spec (k + 1) 1); [lia |]. cbn [orb].
    rewrite Z.ltb_irrefl. reflexivity.
  - rewrite Hmax.
    destruct (Z.eq_dec k 0) as [-> | Hne].
    + destruct (H0 eq_refl) as (-> & _).
      destruct (Z.ltb_spec 0 x); lia.
    + destruct (H1 ltac:(lia)) as (_ & _ & -> & _).
      rewrite Z.ltb_irrefl. reflexivity.
  - split; [exact Hm2' |]. rewrite Hdev, Hm2'.
    rewrite Z.quot_0_l by lia. apply sqrt_zero.
Qed.

Lemma recordAll_repeat (x : Z) (n : nat) :
  forall (k : Z) (p : Pinger),
    validRtt x -> 1 <= k -> k + Z.of_nat n < 2 ^ 63 ->
    settled x k p -> settled x (k + Z.of_nat n) (recordAll (repeat x n) p).
Proof.
  induction n as [| n IH]; intros k p Hx Hk Hn Hs.
  - cbn. rewrite Z.add_0_r. exact Hs.
  - cbn [repeat]. unfold recordAll. cbn [fold_left].
    fold (recordAll (repeat x n)
            (snd (updateStatistics (set_Rtt x Packet0) p))).
    replace (k + Z.of_nat (S n)) with (k + 1 + Z.of_nat n) by lia.
    apply IH; try assumption; try lia.
    apply settled_step; try assumption; try lia;
      first [intros _; exact Hs | destruct Hs as (E & _); exact E].
Qed.

(** X13: replies that all took the same time [x]: after any number [n >= 1]
    of them the accumulator of a new pinger has minimum, maximum and mean
    [x] and deviation 0. *)
Theorem constant_latency (x : Z) (n : nat)
    (localIP remoteIP : string) (timeout count : Z)
    (Hx : validRtt x) (Hn : (1 <= n)%nat) (Hmax : Z.of_nat n < 2 ^ 63) :
  let p := recordAll (repeat x n) (NewPinger localIP remoteIP timeout count) in
  PacketsRecv p = Z.of_nat n /\ minRtt p = x /\ maxRtt p = x /\
  avgRtt p = x /\ stdDevRtt p = 0.
Proof.
  destruct n as [| n]; [lia |]. cbv zeta. cbn [repeat].
  unfold recordAll. cbn [fold_left].
  set (p0 := NewPinger localIP remoteIP timeout count).
  fold (recordAll (repeat x n)
          (snd (updateStatistics (set_Rtt x Packet0) p0))).
  assert (H1 : settled x (0 + 1)
                 (snd (updateStatistics (set_Rtt x Packet0) p0))).
  { apply settled_step; try assumption; try lia;
      first [reflexivity | intros _; repeat split]. }
  pose proof (recordAll_repeat x n (0 + 1) _ Hx ltac:(lia) ltac:(lia) H1)
    as (Hr & Hmin & Hmx & Havg & _ & Hdev).
  repeat split; try assumption. rewrite Hr. lia.
Qed.

Lemma constant_latency_witness :
  let p := recordAll (repeat 12000000 3)
             (NewPinger "0.0.0.0" "1.1.1.1" (5 * Second) 3) in
  PacketsRecv p = Z.of_nat 3 /\ minRtt p = 12000000 /\ maxRtt p = 12000000 /\
  avgRtt p = 12000000 /\ stdDevRtt p = 0.
Proof.
  apply (constant_latency 12000000 3 "0.0.0.0" "1.1.1.1" (5 * Second) 3).
  - vm_compute. split; congruence.
  - repeat constructor.
  - vm_compute. reflexivity.
Defined.

(** X14: [updateStatistics] divides by the incremented reply counter: it
    panics exactly when the counter was -1 before the call, and never for
    a counter that is not negative, the largest [int64] included; either
    way it has counted the reply and appended its round-trip time. *)
Theorem updateStatistics_panic (pkt : Packet) (p : Pinger)
    (Hrange : - 2 ^ 63 <= PacketsRecv p < 2 ^ 63) :
  (fst (updateStatistics pkt p) = Panic <-> PacketsRecv p = -1) /\
  PacketsRecv (snd (updateStatistics pkt p)) = wrap (PacketsRecv p + 1) /\
  rtts (snd (updateStatistics pkt p)) = rtts p ++ [Rtt pkt].
Proof.
  destruct (updateStatistics_frame pkt p)
    as (_ & _ & _ & _ & _ & _ & _ & _ & Hrecv & Hrtts).
  split; [| split; assumption].
  rewrite updateStatistics_completion. unfold add64.
  destruct (Z.eq_dec (PacketsRecv p) (2 ^ 63 - 1)) as [-> | Hne].
  - vm_compute. split; discriminate.
  - rewrite wrap_id by lia.
    destruct (Z.eqb_spec (PacketsRecv p + 1) 0); split; intros; try lia;
      try discriminate; reflexivity.
Qed.

Lemma updateStatistics_panic_witness :
  let pkt := mkPacket 0 64 20 12000000 in
  let p := set_PacketsRecv (-1) (NewPinger "0.0.0.0" "1.1.1.1" (5 * Second) 1) in
  (fst (updateStatistics pkt p) = Panic <-> PacketsRecv p = -1) /\
  PacketsRecv (snd (updateStatistics pkt p)) = wrap (PacketsRecv p + 1) /\
  rtts (snd (updateStatistics pkt p)) = rtts p ++ [Rtt pkt].
Proof.
  apply (updateStatistics_panic (mkPacket 0 64 20 12000000)
           (set_PacketsRecv (-1)
              (NewPinger "0.0.0.0" "1.1.1.1" (5 * Second) 1))).
  vm_compute. split; congruence.
Defined.



(* ================================================================= *)
(** ** The books of a run *)

Lemma pick_app {A : Type} (f : Event -> option A) (tr tr' : list Event) :
  pick f (tr ++ tr') = pick f tr ++ pick f tr'.
Proof.
  induction tr as [| e tr IH]; [reflexivity |].
  cbn [app pick]. destruct (f e); rewrite IH; reflexivity.
Qed.

Lemma countUp_succ (n : Z) : 0 <= n -> countUp (n + 1) = countUp n ++ [n].
Proof.
  intros H. unfold countUp.
  replace (Z.to_nat (n + 1)) with (S (Z.to_nat n)) by lia.
  rewrite seq_S, map_app. cbn [map Nat.add]. rewrite Z2Nat.id by lia.
  reflexivity.
Qed.

Lemma repeat_succ {A : Type} (x : A) (n : Z) :
  0 <= n -> repeat x (Z.to_nat (n + 1)) = repeat x (Z.to_nat n) ++ [x].
Proof.
  intros H. replace (Z.to_nat (n + 1)) with (Z.to_nat n + 1)%nat by lia.
  rewrite repeat_app. reflexivity.
Qed.

(** [Finish] leaves the options alone, and its events are no reading of
    the books. *)
Lemma finishAt_books (l : Loc) (w : World) :
  (Verbose (pinger (finishAt l w)) = Verbose (pinger w) /\
   OnLost (pinger (finishAt l w)) = OnLost (pinger w) /\
   OnRecv (pinger (finishAt l w)) = OnRecv (pinger w) /\
   Interval (pinger (finishAt l w)) = Interval (pinger w)) /\
  pick probeSeq (trace (finishAt l w)) = pick probeSeq (trace w) /\
  pick onRecvCall (trace (finishAt l w)) = pick onRecvCall (trace w) /\
  pick onLostCall (trace (finishAt l w)) = pick onLostCall (trace w) /\
  pick replyPacket (trace (finishAt l w)) = pick replyPacket (trace w) /\
  pick lostPacket (trace (finishAt l w)) = pick lostPacket (trace w) /\
  pick sleepOf (trace (finishAt l w)) = pick sleepOf (trace w) /\
  pick logSeq (trace (finishAt l w)) = pick logSeq (trace w).
Proof.
  unfold finishAt, Finish. destruct (finishOnce w); cbn [pinger trace].
  - rewrite app_nil_r. repeat split.
  - rewrite !pick_app. destruct (OnFinish _); cbn; rewrite !app_nil_r;
      repeat split.
Qed.

Lemma finishAt_booked (v l r : bool) (i : Z) (l' : Loc) (w : World) :
  unanswered l' = unanswered (loc w) -> sleepDue l' = sleepDue (loc w) ->
  logged l' = logged (loc w) ->
  booked v l r i w -> booked v l r i (finishAt l' w).
Proof.
  intros Hu Hs Hl ((Hv & Hol & Hor & Hi) & H1 & H2 & H3 & H4 & H5 & H6 & H7).
  destruct (finishAt_books l' w)
    as ((Fv & Fl & Fr & Fi) & F1 & F2 & F3 & F4 & F5 & F6 & F7).
  destruct (finishAt_view l' w) as (E1 & _ & E3 & _).
  unfold booked.
  rewrite Fv, Fl, Fr, Fi, F1, F2, F3, F4, F5, F6, F7, E1, E3,
    attempts_finishAt, Hu, Hs, Hl.
  repeat split; assumption.
Qed.

Lemma goto_booked (v l r : bool) (i : Z) (l' : Loc) (evs : list Event)
    (w : World) :
  Verbose (pinger w) = v -> OnLost (pinger w) = l ->
  OnRecv (pinger w) = r -> Interval (pinger w) = i ->
  pick probeSeq (trace w) ++ pick probeSeq evs
  = countUp (attempts (trace w) + attempts evs) ->
  pick onRecvCall (trace w) ++ pick onRecvCall evs
  = (if r then pick replyPacket (trace w) ++ pick replyPacket evs else []) ->
  pick onLostCall (trace w) ++ pick onLostCall evs
  = (if l then pick lostPacket (trace w) ++ pick lostPacket evs else []) ->
  len (pick replyPacket (trace w) ++ pick replyPacket evs)
  + len (pick lostPacket (trace w) ++ pick lostPacket evs) + unanswered l'
  = attempts (trace w) + attempts evs ->
  pick sleepOf (trace w) ++ pick sleepOf evs
  = repeat i (Z.to_nat (PacketsSent (pinger w) - sleepDue l')) ->
  pick logSeq (trace w) ++ pick logSeq evs
  = (if v then countUp (PacketsSent (pinger w) + logged l') else []) ->
  sleepDue l' <= PacketsSent (pinger w) ->
  booked v l r i (goto l' evs w).
Proof.
  intros. unfold booked, goto. cbn [pinger loc trace].
  rewrite !pick_app, attempts_app. repeat split; assumption.
Qed.

Lemma len_single {A : Type} (x : A) : len [x] = 1.
Proof. reflexivity. Qed.

Ltac books :=
  cbn [pick probeSeq replyPacket lostPacket onRecvCall onLostCall sleepOf
       logSeq unanswered sleepDue logged inflight waiting pending] in *;
  rewrite ?attempts_cons, ?attempts_nil, ?app_nil_r, ?len_app, ?len_single
    in *;
  cbn [isProbe] in *;
  change (len (@nil Packet)) with 0 in *;
  rewrite ?Z.add_0_r, ?Z.sub_0_r in *.

(** No step breaks the books, as long as the counters do not wrap. *)
Lemma exec_booked (v l r : bool) (i n : Z) (a : Action) (w : World) :
  booked v l r i w -> consistent n w -> n + 1 < 2 ^ 63 ->
  booked v l r i (exec a w).
Proof.
  intros Hb Hc Hn.
  pose proof Hb as ((Hv & Hol & Hor & Hi) & H1 & H2 & H3 & H4 & H5 & H6 & H7).
  pose proof Hc as (Hrecv & Hr & Hrep & Hsent & Hatt).
  pose proof (len_nonneg (filter isProbe (trace w))) as Hpos.
  fold (attempts (trace w)) in Hpos.
  unfold exec. destruct a as [| [[e |] k |] |]; destruct (loc w) eqn:Hl;
    try exact Hb.
  all: try (apply finishAt_booked; rewrite ?Hl; try reflexivity; exact Hb).
  all: idtac.
  - (* AtEntry *)
    destruct (finished (pinger w)); apply goto_booked; books;
      try assumption.
  - (* AtLoop *)
    destruct (count =? 0);
      [apply finishAt_booked; rewrite ?Hl; try reflexivity; exact Hb |].
    apply goto_booked; books; try assumption.
  - (* AtCall *)
    apply goto_booked; books; try assumption; try lia.
    rewrite countUp_succ by lia. rewrite H1.
    replace (PacketsSent (pinger w)) with (attempts (trace w)) by lia.
    reflexivity.
  - (* AtUpdate *)
    assert (Hcount : add64 (PacketsRecv (pinger w)) 1 <> 0).
    { pose proof (len_nonneg (rtts (pinger w))).
      cbn [pending waiting] in Hr, Hrep. rewrite <- Hr, len_app in Hrep.
      change (len [Rtt packet]) with 1 in Hrep.
      unfold add64. rewrite Hrecv, wrap_id by lia. lia. }
    destruct (updateStatistics_fields packet (pinger w) Hcount) as (Hok & _).
    pose proof (updateStatistics_frame packet (pinger w)) as F.
    cbv zeta in F. destruct F as (Fs & _ & _ & Fv & Fi & Fl & Fr & _).
    destruct (updateStatistics packet (pinger w)) as [c p'].
    cbn [fst snd] in *. subst c.
    unfold booked. cbn [pinger loc trace]. books.
    rewrite Fs, Fv, Fi, Fl, Fr. repeat split; assumption.
  - (* AtLog *)
    apply goto_booked; try assumption; rewrite Hv; destruct v; books;
      try assumption; try lia.
    rewrite countUp_succ by lia. rewrite H6. reflexivity.
  - (* AtIncr *)
    unfold booked. cbn [pinger loc trace set_PacketsSent Verbose OnLost OnRecv
                        Interval PacketsSent].
    books. unfold add64. rewrite wrap_id by lia.
    replace (PacketsSent (pinger w) + 1 - 1) with (PacketsSent (pinger w))
      by lia.
    repeat split; try assumption; lia.
  - (* AtSleep *)
    apply goto_booked; try assumption; rewrite ?Hi; books;
      try assumption; try lia.
    rewrite H5.
    replace (PacketsSent (pinger w))
      with (PacketsSent (pinger w) - 1 + 1) at 2 by lia.
    rewrite repeat_succ by lia. reflexivity.
  - (* a loss *)
    apply goto_booked; try assumption; rewrite Hol; destruct l, r; books;
      try assumption; rewrite ?H2, ?H3; try reflexivity; lia.
  - (* a reply *)
    apply goto_booked; try assumption; rewrite Hor; destruct l, r; books;
      try assumption; rewrite ?H2, ?H3; try reflexivity; lia.
Qed.

Lemma run_counts (sched : list Action) (p : Pinger) :
  fresh p -> len sched < 2 ^ 63 ->
  consistent (len sched) (run sched (start p)).
Proof.
  intros (Hs & Hr & Ht).
  induction sched as [| x sched IH] using rev_ind; intros Hn.
  - change (run [] (start p)) with (start p). unfold consistent, start.
    cbn [pinger loc trace pending waiting inflight replies].
    rewrite Hs, Hr, Ht. repeat split; cbn; lia.
  - rewrite len_app in *. change (len [x]) with 1 in *.
    rewrite run_snoc. apply exec_consistent; [| assumption].
    apply IH. lia.
Qed.

Lemma run_booked (sched : list Action) (p : Pinger) :
  fresh p -> len sched < 2 ^ 63 ->
  booked (Verbose p) (OnLost p) (OnRecv p) (Interval p)
    (run sched (start p)).
Proof.
  intros Hf. pose proof Hf as (Hs & Hr & Ht).
  induction sched as [| x sched IH] using rev_ind; intros Hn.
  - change (run [] (start p)) with (start p). unfold booked, start.
    cbn [pinger loc trace pick unanswered sleepDue logged attempts filter].
    rewrite Hs.
    change (len (@nil Event)) with 0. change (len (@nil Packet)) with 0.
    destruct (Verbose p), (OnLost p), (OnRecv p); repeat split; lia.
  - rewrite len_app in *. change (len [x]) with 1 in *.
    rewrite run_snoc. apply (exec_booked _ _ _ _ (len sched)).
    + apply IH. lia.
    + apply run_counts; [exact Hf | lia].
    + exact Hn.
Qed.

(** X2: the probes of a run carry the sequence numbers 0, 1, 2, ... in the
    order they are issued, whatever the outcome of each attempt. *)
Theorem probe_sequence_numbers (p : Pinger) (sched : list Action)
    (Hfresh : fresh p) (Hlen : len sched < 2 ^ 63) :
  let w := run sched (start p) in
  pick probeSeq (trace w) = countUp (attempts (trace w)).
Proof.
  destruct (run_booked sched p Hfresh Hlen) as (_ & H & _). exact H.
Qed.

Lemma probe_sequence_numbers_witness :
  let w := run twoProbes (start twoProbesPinger) in
  pick probeSeq (trace w) = countUp (attempts (trace w)).
Proof.
  apply (probe_sequence_numbers twoProbesPinger twoProbes).
  - repeat split.
  - vm_compute. reflexivity.
Defined.

(** X3: every attempt ends in one of two ways, unless [Ping] has not
    returned yet or has panicked: as a reply or as a loss.  A reply is
    handed to [OnRecv] and a loss to [OnLost], each once and in order,
    when that callback is set; a callback that is nil is never called. *)
Theorem attempts_answered (p : Pinger) (sched : list Action)
    (Hfresh : fresh p) (Hlen : len sched < 2 ^ 63) :
  let w := run sched (start p) in
  len (pick replyPacket (trace w)) + len (pick lostPacket (trace w))
  + unanswered (loc w) = attempts (trace w) /\
  pick onRecvCall (trace w)
  = (if OnRecv p then pick replyPacket (trace w) else []) /\
  pick onLostCall (trace w)
  = (if OnLost p then pick lostPacket (trace w) else []).
Proof.
  destruct (run_booked sched p Hfresh Hlen)
    as (_ & _ & H2 & H3 & H4 & _).
  repeat split; assumption.
Qed.

Lemma attempts_answered_witness :
  let w := run twoProbes (start twoProbesPinger) in
  len (pick replyPacket (trace w)) + len (pick lostPacket (trace w))
  + unanswered (loc w) = attempts (trace w) /\
  pick onRecvCall (trace w)
  = (if OnRecv twoProbesPinger then pick replyPacket (trace w) else []) /\
  pick onLostCall (trace w)
  = (if OnLost twoProbesPinger then pick lostPacket (trace w) else []).
Proof.
  apply (attempts_answered twoProbesPinger twoProbes).
  - repeat split.
  - vm_compute. reflexivity.
Defined.

(** X4: [Run] sleeps for [Interval] after every attempt it has counted as
    sent, the last one included, and at no other time. *)
Theorem sleeps_after_each_attempt (p : Pinger) (sched : list Action)
    (Hfresh : fresh p) (Hlen : len sched < 2 ^ 63) :
  let w := run sched (start p) in
  pick sleepOf (trace w)
  = repeat (Interval p)
      (Z.to_nat (PacketsSent (pinger w) - sleepDue (loc w))) /\
  0 <= sleepDue (loc w) <= PacketsSent (pinger w).
Proof.
  destruct (run_booked sched p Hfresh Hlen)
    as (_ & _ & _ & _ & _ & H5 & _ & H7).
  cbv zeta. split; [exact H5 |].
  split; [destruct (loc (run sched (start p))); cbn; lia | exact H7].
Qed.

Lemma sleeps_after_each_attempt_witness :
  let w := run twoProbes (start twoProbesPinger) in
  pick sleepOf (trace w)
  = repeat (Interval twoProbesPinger)
      (Z.to_nat (PacketsSent (pinger w) - sleepDue (loc w))) /\
  0 <= sleepDue (loc w) <= PacketsSent (pinger w).
Proof.
  apply (sleeps_after_each_attempt twoProbesPinger twoProbes).
  - repeat split.
  - vm_compute. reflexivity.
Defined.

(** X5: a verbose pinger logs each attempt once, after its callback and
    before the sent counter is incremented, under the sequence number of
    the attempt; a pinger that is not verbose logs nothing. *)
Theorem log_lines (p : Pinger) (sched : list Action)
    (Hfresh : fresh p) (Hlen : len sched < 2 ^ 63) :
  let w := run sched (start p) in
  pick logSeq (trace w)
  = (if Verbose p
     then countUp (PacketsSent (pinger w) + logged (loc w)) else []).
Proof.
  destruct (run_booked sched p Hfresh Hlen)
    as (_ & _ & _ & _ & _ & _ & H6 & _).
  exact H6.
Qed.

Lemma log_lines_witness :
  let w := run twoProbes (start twoProbesPinger) in
  pick logSeq (trace w)
  = (if Verbose twoProbesPinger
     then countUp (PacketsSent (pinger w) + logged (loc w)) else []).
Proof.
  apply (log_lines twoProbesPinger twoProbes).
  - repeat split.
  - vm_compute. reflexivity.
Defined.

(** What the schedule of the witnesses leaves behind. *)
Example run_twoProbes :
  let w := run twoProbes (start twoProbesPinger) in
  loc w = Exited /\
  pick probeSeq (trace w) = [0; 1] /\
  pick sleepOf (trace w) = [Second; Second] /\
  pick logSeq (trace w) = [0; 1] /\
  len (pick replyPacket (trace w)) = 1 /\ len (pick lostPacket (trace w)) = 1.
Proof. vm_compute. repeat split. Qed.

(* ================================================================= *)
(** ** A run without interference *)

Lemma run_cons (a : Action) (sched : list Action) (w : World) :
  run (a :: sched) w = run sched (exec a w).
Proof. reflexivity. Qed.

Lemma run_app (s1 s2 : list Action) (w : World) :
  run (s1 ++ s2) w = run s2 (run s1 w).
Proof. unfold run. apply fold_left_app. Qed.

Lemma run_keeps_consistent (sched : list Action) :
  forall (n : Z) (w : World),
    consistent n w -> n + len sched < 2 ^ 63 ->
    consistent (n + len sched) (run sched w).
Proof.
  induction sched as [| a sched IH]; intros n w Hc Hn.
  - change (len (@nil Action)) with 0. rewrite Z.add_0_r. exact Hc.
  - rewrite run_cons.
    assert (Hl : len (a :: sched) = 1 + len sched)
      by (unfold len; cbn [length]; lia).
    rewrite Hl in *. pose proof (len_nonneg sched).
    replace (n + (1 + len sched)) with (n + 1 + len sched) by lia.
    apply IH; [| lia]. apply exec_consistent; [exact Hc | lia].
Qed.

(** The steps of [Run], one position at a time. *)
Lemma exec_loop (w : World) (k : Z) :
  loc w = AtLoop k -> 0 < k < 2 ^ 63 ->
  exec Step w = goto (AtCall (k - 1)) [] w.
Proof.
  intros Hl Hk. unfold exec. rewrite Hl.
  destruct (Z.eqb_spec k 0); [lia |].
  destruct (Z.ltb_spec 0 k); [| lia].
  unfold sub64. rewrite wrap_id by lia. reflexivity.
Qed.

Lemma exec_call (w : World) (k : Z) :
  loc w = AtCall k ->
  exec Step w
  = goto (InPing k (PacketsSent (pinger w))) [Probe (PacketsSent (pinger w))] w.
Proof. intros Hl. unfold exec. rewrite Hl. reflexivity. Qed.

Lemma exec_reply (w : World) (k s : Z) (pk : Packet) :
  loc w = InPing k s ->
  exec (PingReturns (Returned None pk)) w
  = goto (AtUpdate k pk)
      (Reply pk :: if OnRecv (pinger w) then [CallOnRecv pk] else []) w.
Proof. intros Hl. unfold exec. rewrite Hl. reflexivity. Qed.

Lemma exec_error (w : World) (k s : Z) (e : PingError) (pk : Packet) :
  loc w = InPing k s ->
  exec (PingReturns (Returned (Some e) pk)) w
  = goto (AtLog k true pk)
      (Lost pk :: if OnLost (pinger w) then [CallOnLost pk] else []) w.
Proof. intros Hl. unfold exec. rewrite Hl. reflexivity. Qed.

Lemma exec_update (w : World) (k : Z) (pk : Packet) :
  loc w = AtUpdate k pk -> add64 (PacketsRecv (pinger w)) 1 <> 0 ->
  exec Step w
  = mkWorld (snd (updateStatistics pk (pinger w))) (finishOnce w)
      (AtLog k false pk) (trace w).
Proof.
  intros Hl Hn. unfold exec. rewrite Hl.
  destruct (updateStatistics_fields pk (pinger w) Hn) as (Hok & _).
  destruct (updateStatistics pk (pinger w)) as [c p']. cbn [fst snd] in *.
  subst c. reflexivity.
Qed.

Lemma exec_log (w : World) (k : Z) (isLost : bool) (pk : Packet) :
  loc w = AtLog k isLost pk ->
  exec Step w
  = goto (AtIncr k)
      (if Verbose (pinger w)
       then [Logged isLost (PacketsSent (pinger w)) pk] else []) w.
Proof. intros Hl. unfold exec. rewrite Hl. reflexivity. Qed.

Lemma exec_incr (w : World) (k : Z) :
  loc w = AtIncr k ->
  exec Step w
  = mkWorld (set_PacketsSent (add64 (PacketsSent (pinger w)) 1) (pinger w))
      (finishOnce w) (AtSleep k) (trace w).
Proof. intros Hl. unfold exec. rewrite Hl. reflexivity. Qed.

Lemma exec_sleep (w : World) (k : Z) :
  loc w = AtSleep k ->
  exec Step w = goto (AtLoop k) [Slept (Interval (pinger w))] w.
Proof. intros Hl. unfold exec. rewrite Hl. reflexivity. Qed.

Lemma observerCalls_app (tr tr' : list Event) :
  observerCalls (tr ++ tr') = observerCalls tr ++ observerCalls tr'.
Proof. apply filter_app. Qed.

Lemma len_iteration (r : PingReturn) : 6 <= len (iteration r) <= 7.
Proof. destruct r as [[e |] pk |]; cbn; lia. Qed.

(** One iteration takes [Run] from the loop test back to the loop test,
    with one attempt less to go, one probe more and, after a reply, its
    round-trip time. *)
Lemma iteration_looping (r : PingReturn) (k n : Z) (w : World) :
  looping k w -> 0 < k < 2 ^ 63 -> returns r ->
  consistent n w -> n + 1 < 2 ^ 63 ->
  looping (k - 1) (run (iteration r) w) /\
  attempts (trace (run (iteration r) w)) = attempts (trace w) + 1 /\
  replies (trace (run (iteration r) w)) = replies (trace w) ++ replyRtts [r].
Proof.
  intros (Hl & Ho & Hf & Hobs) Hk Hr (Hrecv & Hrt & Hrep & _ & Hatt) Hn.
  assert (Hcount : add64 (PacketsRecv (pinger w)) 1 <> 0).
  { pose proof (len_nonneg (rtts (pinger w))).
    pose proof (len_nonneg (pending (loc w))).
    assert (0 <= waiting (loc w)) by (rewrite Hl; cbn; lia).
    rewrite <- Hrt, len_app in Hrep.
    unfold add64. rewrite Hrecv, wrap_id by lia. lia. }
  unfold iteration. destruct r as [[e |] pk |]; [| | congruence].
  - cbn [app].
    rewrite run_cons, (exec_loop w k Hl Hk).
    rewrite run_cons, (exec_call _ (k - 1)) by reflexivity.
    rewrite run_cons, (exec_error _ (k - 1) (PacketsSent (pinger w)))
      by reflexivity.
    rewrite run_cons, (exec_log _ (k - 1) true pk) by reflexivity.
    rewrite run_cons, (exec_incr _ (k - 1)) by reflexivity.
    rewrite run_cons, (exec_sleep _ (k - 1)) by reflexivity.
    unfold looping, goto. cbn [run fold_left loc finishOnce pinger trace
                               set_PacketsSent finished].
    rewrite !observerCalls_app, !attempts_app, !replies_app, Hobs.
    destruct (OnLost (pinger w)), (Verbose (pinger w));
      cbn [replies replyRtts app]; rewrite ?app_nil_r;
      rewrite ?attempts_cons, ?attempts_nil; cbn [isProbe];
      repeat split; try assumption; lia.
  - cbn [app].
    rewrite run_cons, (exec_loop w k Hl Hk).
    rewrite run_cons, (exec_call _ (k - 1)) by reflexivity.
    rewrite run_cons, (exec_reply _ (k - 1) (PacketsSent (pinger w)))
      by reflexivity.
    rewrite run_cons, (exec_update _ (k - 1) pk)
      by (try reflexivity; exact Hcount).
    rewrite run_cons, (exec_log _ (k - 1) false pk) by reflexivity.
    rewrite run_cons, (exec_incr _ (k - 1)) by reflexivity.
    rewrite run_cons, (exec_sleep _ (k - 1)) by reflexivity.
    pose proof (updateStatistics_frame pk (pinger w)) as F.
    cbv zeta in F. destruct F as (_ & Ffin & _ & Fv & _).
    unfold looping, goto. cbn [run fold_left loc finishOnce pinger trace
                               set_PacketsSent finished].
    rewrite !observerCalls_app, !attempts_app, !replies_app, Hobs, Ffin.
    destruct (OnRecv (pinger w)),
      (Verbose (snd (updateStatistics pk (pinger w))));
      cbn [replies replyRtts app]; rewrite ?app_nil_r;
      rewrite ?attempts_cons, ?attempts_nil; cbn [isProbe];
      repeat split; try assumption; lia.
Qed.

Lemma replyRtts_cons (r : PingReturn) (rs : list PingReturn) :
  replyRtts (r :: rs) = replyRtts [r] ++ replyRtts rs.
Proof. destruct r as [[e |] pk |]; reflexivity. Qed.

(** The iterations for the results [rs] take [Run] from the loop test
    with [len rs] attempts to go to the loop test with none. *)
Lemma iterations_looping (rs : list PingReturn) :
  forall (n : Z) (w : World),
    looping (len rs) w -> len rs < 2 ^ 63 -> Forall returns rs ->
    consistent n w -> n + len (flat_map iteration rs) + 1 < 2 ^ 63 ->
    let w' := run (flat_map iteration rs) w in
    looping 0 w' /\
    attempts (trace w') = attempts (trace w) + len rs /\
    replies (trace w') = replies (trace w) ++ replyRtts rs.
Proof.
  induction rs as [| r rs IH]; intros n w Hl Hk Hall Hc Hn.
  - cbn. rewrite app_nil_r. repeat split; try apply Hl. lia.
  - inversion Hall as [| r' rs' Hr Hrs]; subst.
    assert (Hlen : len (r :: rs) = len rs + 1)
      by (unfold len; cbn [length]; lia).
    pose proof (len_nonneg rs) as Hpos.
    pose proof (len_iteration r) as Hit.
    pose proof (len_nonneg (flat_map iteration rs)) as Hfpos.
    cbn [flat_map] in *. rewrite len_app in Hn. rewrite Hlen in *.
    cbv zeta. rewrite run_app.
    destruct (iteration_looping r (len rs + 1) n w Hl ltac:(lia) Hr Hc
                ltac:(lia)) as (Hl1 & Ha1 & Hr1).
    replace (len rs + 1 - 1) with (len rs) in Hl1 by lia.
    pose proof (run_keeps_consistent (iteration r) n w Hc ltac:(lia)) as Hc1.
    destruct (IH (n + len (iteration r)) (run (iteration r) w) Hl1
                ltac:(lia) Hrs Hc1 ltac:(lia)) as (Hl2 & Ha2 & Hr2).
    split; [exact Hl2 |]. split.
    + rewrite Ha2, Ha1. lia.
    + rewrite Hr2, Hr1, (replyRtts_cons r rs), app_assoc. reflexivity.
Qed.

Lemma run_config (sched : list Action) (w : World) :
  OnFinish (pinger (run sched w)) = OnFinish (pinger w).
Proof.
  revert w. induction sched as [| a sched IH]; intros w; [reflexivity |].
  rewrite run_cons, IH. apply exec_config.
Qed.


